(** * CloudScript blog backend: a shallow embedding of [server.js]

    The server is an Express router in which every route runs one SQL
    statement against a SQLite file, or asks the S3 SDK for a signed URL.
    The embedding keeps that shape: a handler is a function from the
    store and the destructured request fields to the reply it sends and
    the store it leaves behind.

    What is modelled, and how:
    - a JavaScript string is its list of UTF-16 code units;
    - a field of the JSON body is a [JsValue]: absent ([JUndefined]),
      [null], a boolean, a number or a string.  Numbers are the integers
      (a JSON number with a fraction is outside the model), arrays and
      objects are outside the model;
    - a table is the list of its rows in insertion order, together with
      the counter SQLite keeps for an AUTOINCREMENT key;
    - the libraries the server calls (bcrypt, the SQLite driver's
      conversion of a bound value to TEXT, the S3 signer) and the two
      environment variables are fields of the class [Collaborators];
    - the clock is an input: [CURRENT_TIMESTAMP] and [Date.now()] are
      arguments of the handlers that read them, the salt drawn by
      [bcrypt.hash] likewise;
    - the store does not fail on its own: the [if (err)] branches after
      SELECT, UPDATE and DELETE are never taken, an INSERT fails only on
      the UNIQUE constraint of [users.email];
    - the [:id] segment of a route is the integer SQLite compares with
      the INTEGER PRIMARY KEY; a segment that denotes no integer matches
      no row, like an integer that is not in the table.

    Beside the routes of [server.js] the file embeds the submit listener
    of [script.js], the create-post endpoint of the earlier server that
    the listener was written for, and [carousel.js]. *)

From Stdlib Require Import ZArith NArith List Ascii String Lia.
From Stdlib Require Import DecimalString DecimalPos DecimalZ.
From stdpp Require Import base decidable option numbers list sorting.
Import ListNotations.
Local Open Scope Z_scope.

(** ** JavaScript strings and values *)

Abbreviation JsString := (list N) (only parsing).

(** An ASCII literal of the source as code units. *)
Definition js (s : string) : JsString :=
  map N_of_ascii (list_ascii_of_string s).

Inductive JsValue : Type :=
  | JUndefined
  | JNull
  | JBool (b : bool)
  | JNum (n : Z)
  | JStr (s : JsString).

#[global] Instance JsValue_eq_dec : EqDecision JsValue.
Proof. solve_decision. Defined.

(** ToBoolean: [undefined], [null], [false], [0] and [""] are falsy. *)
Definition truthy (v : JsValue) : bool :=
  match v with
  | JUndefined => false
  | JNull => false
  | JBool b => b
  | JNum n => negb (n =? 0)
  | JStr s => match s with [] => false | _ :: _ => true end
  end.

(** The prefix operator [!v]. *)
Definition jnot (v : JsValue) : bool := negb (truthy v).

(** [a || b] on values: the left operand when it is truthy. *)
Definition jor (a b : JsValue) : JsValue := if truthy a then a else b.

(** Decimal rendering of an integer, as [String(n)] gives it. *)
Definition decimal (n : Z) : JsString :=
  js (NilZero.string_of_int (Z.to_int n)).

(** ToString, as a template literal applies it to [${v}]. *)
Definition ToString (v : JsValue) : JsString :=
  match v with
  | JUndefined => js "undefined"
  | JNull => js "null"
  | JBool true => js "true"
  | JBool false => js "false"
  | JNum n => decimal n
  | JStr s => s
  end.

(** [s.includes(sub)]. *)
Fixpoint starts_with (s sub : JsString) : bool :=
  match sub, s with
  | [], _ => true
  | _ :: _, [] => false
  | c :: sub', d :: s' => (c =? d)%N && starts_with s' sub'
  end.

Fixpoint includes (s sub : JsString) : bool :=
  starts_with s sub ||
  match s with
  | [] => false
  | _ :: s' => includes s' sub
  end.

(** ** The two regular expressions of the upload route *)

(** The class [\s]: WhiteSpace and LineTerminator of ECMAScript. *)
Definition is_space (c : N) : bool :=
  ((9 <=? c) && (c <=? 13) ||
   (c =? 32) || (c =? 160) || (c =? 5760) ||
   (8192 <=? c) && (c <=? 8202) ||
   (c =? 8232) || (c =? 8233) || (c =? 8239) || (c =? 8287) ||
   (c =? 12288) || (c =? 65279))%N.

(** The class [a-zA-Z0-9._-]. *)
Definition is_key_char (c : N) : bool :=
  ((97 <=? c) && (c <=? 122) ||
   (65 <=? c) && (c <=? 90) ||
   (48 <=? c) && (c <=? 57) ||
   (c =? 46) || (c =? 95) || (c =? 45))%N.

Definition underscore : N := 95%N.

(** [s.replace(/\s+/g, '_')]: scanning left to right, a maximal run of
    [\s] yields one underscore; [in_run] tells that the run the scan is
    in has already yielded it. *)
Fixpoint replace_space_runs (in_run : bool) (s : JsString) : JsString :=
  match s with
  | [] => []
  | c :: rest =>
      if is_space c
      then if in_run then replace_space_runs true rest
           else underscore :: replace_space_runs true rest
      else c :: replace_space_runs false rest
  end.

(** [s.replace(/[^a-zA-Z0-9._-]/g, '')]. *)
Definition strip_other_chars (s : JsString) : JsString :=
  List.filter is_key_char s.

Definition sanitize (fileName : JsString) : JsString :=
  strip_other_chars (replace_space_runs false fileName).

(** ** The store *)

Module User.
Record t : Type := mk {
  id : Z;
  fullName : JsString;
  email : JsString;
  password : JsString
}.
End User.

Module Post.
Record t : Type := mk {
  id : Z;
  title : JsString;
  content : JsString;
  author : JsString;
  username : option JsString;
  imageUrl : option JsString;
  category : option JsString;
  status : option JsString;
  createdAt : Z
}.

(** [SET status = s] on one row. *)
Definition set_status (s : JsString) (p : t) : t :=
  mk (id p) (title p) (content p) (author p) (username p) (imageUrl p)
     (category p) (Some s) (createdAt p).
End Post.

#[global] Instance User_eq_dec : EqDecision User.t.
Proof. solve_decision. Defined.

#[global] Instance Post_eq_dec : EqDecision Post.t.
Proof. solve_decision. Defined.

Record Db : Type := mkDb {
  users : list User.t;
  users_seq : Z;
  posts : list Post.t;
  posts_seq : Z
}.

(** The store after [CREATE TABLE IF NOT EXISTS] on a new file. *)
Definition empty_db : Db := mkDb [] 0 [] 0.

(** The key AUTOINCREMENT gives the next row: one more than the largest
    key the table has ever held. *)
Definition next_rowid (seq : Z) (ids : list Z) : Z :=
  Z.max seq (foldr Z.max 0 ids) + 1.

Record SqliteError : Type := mkSqliteError { sqlite_message : JsString }.

Definition unique_email_failed : SqliteError :=
  mkSqliteError (js "SQLITE_CONSTRAINT: UNIQUE constraint failed: users.email").

(** [INSERT INTO users (fullName, email, password) VALUES (?, ?, ?)]. *)
Definition insert_user (db : Db) (fullName email password : JsString)
  : SqliteError + Db :=
  if existsb (fun u => bool_decide (User.email u = email)) (users db)
  then inl unique_email_failed
  else
    let id := next_rowid (users_seq db) (map User.id (users db)) in
    inr (mkDb (users db ++ [User.mk id fullName email password]) id
              (posts db) (posts_seq db)).

(** [INSERT INTO posts (title, content, author, username, imageUrl,
    category, status) VALUES (?, ?, ?, ?, ?, ?, 'pending')]; [createdAt]
    takes its default, the current timestamp. *)
Definition insert_post (now : Z) (db : Db)
    (title content author username : JsString) (imageUrl : option JsString)
    (category : JsString) : Db :=
  let id := next_rowid (posts_seq db) (map Post.id (posts db)) in
  mkDb (users db) (users_seq db)
       (posts db ++ [Post.mk id title content author (Some username) imageUrl
                             (Some category) (Some (js "pending")) now])
       id.

(** [SELECT * FROM users WHERE email = ?], first row. *)
Definition select_user_by_email (db : Db) (email : JsString) : option User.t :=
  List.find (fun u => bool_decide (User.email u = email)) (users db).

(** [ORDER BY createdAt DESC]. *)
Definition newer_first (p q : Post.t) : Prop :=
  Post.createdAt q <= Post.createdAt p.

#[global] Instance newer_first_dec p q : Decision (newer_first p q).
Proof. unfold newer_first. apply _. Defined.

Definition order_by_createdAt_desc (rows : list Post.t) : list Post.t :=
  merge_sort newer_first rows.

(** [WHERE status = 'lit']. *)
Definition has_status (lit : JsString) (p : Post.t) : bool :=
  bool_decide (Post.status p = Some lit).

(** [WHERE id = ?]. *)
Definition has_id (id : Z) (p : Post.t) : bool :=
  bool_decide (Post.id p = id).

(** [UPDATE posts SET status = 'lit' WHERE id = ?]: the rows afterwards
    and [this.changes]. *)
Definition update_status (lit : JsString) (id : Z) (rows : list Post.t)
  : list Post.t * nat :=
  (map (fun p => if has_id id p then Post.set_status lit p else p) rows,
   length (List.filter (has_id id) rows)).

(** [DELETE FROM posts WHERE id = ?]: the rows afterwards and
    [this.changes]. *)
Definition delete_rows (id : Z) (rows : list Post.t) : list Post.t * nat :=
  (List.filter (fun p => negb (has_id id p)) rows,
   length (List.filter (has_id id) rows)).

Definition with_posts (db : Db) (rows : list Post.t) : Db :=
  mkDb (users db) (users_seq db) rows (posts_seq db).

(** ** Replies *)

Inductive Body : Type :=
  | Message (message : JsString)
  | LoginBody (message : JsString) (id : Z) (fullName email : JsString)
  | RowsBody (rows : list Post.t)
  | RowBody (row : Post.t)
  | GrantBody (uploadUrl fileUrl : JsString).

(** What a handler does with [res]: it sends a status and a JSON body,
    or an exception leaves it before it sends anything. *)
Inductive Outcome : Type :=
  | Sent (code : Z) (body : Body)
  | Uncaught.

Definition code_of (o : Outcome) : option Z :=
  match o with
  | Sent c _ => Some c
  | Uncaught => None
  end.

(** ** The collaborators *)

Record S3Params : Type := mkS3Params {
  Bucket : JsValue;
  Key : JsString;
  Expires : Z;
  ContentType : JsValue
}.

Record S3Error : Type := mkS3Error { s3_message : JsValue }.

Class Collaborators : Type := {
  (** the text a TEXT column holds, and a SELECT gives back, for a bound
      JavaScript value *)
  sqlText : JsValue -> JsString;
  (** [bcrypt.hash(data, rounds)] with the salt it draws; [None] when the
      promise is rejected *)
  bcrypt_hash : N -> JsValue -> Z -> option JsString;
  (** [bcrypt.compare(data, hash)]; [None] when the promise is rejected *)
  bcrypt_compare : JsValue -> JsString -> option bool;
  (** [s3.getSignedUrl(operation, params, callback)]: the error or the
      URL the callback receives *)
  getSignedUrl : JsString -> S3Params -> S3Error + JsString;
  S3_BUCKET_NAME : JsValue;
  AWS_REGION : JsValue
}.

Definition URL_EXPIRATION_SECONDS : Z := 300.

(** ** The routes *)

Section Routes.
Context `{Collaborators}.

(** [POST /api/signup] *)
Definition signup (salt : N) (db : Db) (fullName email password : JsValue)
  : Outcome * Db :=
  if jnot fullName || jnot email || jnot password
  then (Sent 400 (Message (js "All fields required.")), db)
  else
    match bcrypt_hash salt password 10 with
    | None => (Sent 500 (Message (js "Hashing error.")), db)
    | Some hashedPassword =>
        match insert_user db (sqlText fullName) (sqlText email)
                          (sqlText (JStr hashedPassword)) with
        | inl err =>
            if includes (sqlite_message err) (js "UNIQUE")
            then (Sent 409 (Message (js "Email already exists.")), db)
            else (Sent 500 (Message (js "Error creating user.")), db)
        | inr db' =>
            (Sent 201 (Message (js "User registered successfully!")), db')
        end
    end.

(** [POST /api/login] *)
Definition login (db : Db) (email password : JsValue) : Outcome * Db :=
  if jnot email || jnot password
  then (Sent 400 (Message (js "Email and password required.")), db)
  else
    match select_user_by_email db (sqlText email) with
    | None => (Sent 401 (Message (js "Invalid credentials.")), db)
    | Some user =>
        match bcrypt_compare password (User.password user) with
        | None => (Uncaught, db)
        | Some true =>
            (Sent 200 (LoginBody (js "Login successful!") (User.id user)
                                 (User.fullName user) (User.email user)), db)
        | Some false => (Sent 401 (Message (js "Invalid credentials.")), db)
        end
    end.

(** [POST /api/posts] *)
Definition submit (now : Z) (db : Db)
    (title content author username imageUrl category : JsValue)
  : Outcome * Db :=
  if jnot title || jnot content || jnot author || jnot username
     || jnot category
  then (Sent 400 (Message (js "Missing fields.")), db)
  else
    let image :=
      match jor imageUrl JNull with
      | JNull => None
      | v => Some (sqlText v)
      end in
    (Sent 201 (Message (js "Post created successfully.")),
     insert_post now db (sqlText title) (sqlText content) (sqlText author)
                 (sqlText username) image (sqlText category)).

(** [GET /api/posts] *)
Definition listAll (db : Db) : Outcome * Db :=
  (Sent 200 (RowsBody (order_by_createdAt_desc (posts db))), db).

(** [GET /api/posts/approved] *)
Definition listApproved (db : Db) : Outcome * Db :=
  (Sent 200 (RowsBody (order_by_createdAt_desc
                         (List.filter (has_status (js "approved")) (posts db)))),
   db).

(** [GET /api/posts/pending] *)
Definition listPending (db : Db) : Outcome * Db :=
  (Sent 200 (RowsBody (order_by_createdAt_desc
                         (List.filter (has_status (js "pending")) (posts db)))),
   db).

(** [PUT /api/posts/:id/approve] *)
Definition approve (db : Db) (id : Z) : Outcome * Db :=
  let (rows, changes) := update_status (js "approved") id (posts db) in
  if Nat.eqb changes 0
  then (Sent 404 (Message (js "Post not found.")), with_posts db rows)
  else (Sent 200 (Message (js "Post approved.")), with_posts db rows).

(** [PUT /api/posts/:id/reject] *)
Definition reject (db : Db) (id : Z) : Outcome * Db :=
  let (rows, changes) := update_status (js "rejected") id (posts db) in
  if Nat.eqb changes 0
  then (Sent 404 (Message (js "Post not found.")), with_posts db rows)
  else (Sent 200 (Message (js "Post rejected.")), with_posts db rows).

(** [DELETE /api/posts/:id] *)
Definition delete_post (db : Db) (id : Z) : Outcome * Db :=
  let (rows, changes) := delete_rows id (posts db) in
  if Nat.eqb changes 0
  then (Sent 404 (Message (js "Post not found.")), with_posts db rows)
  else (Sent 200 (Message (js "Post deleted.")), with_posts db rows).

(** [GET /api/posts/:id] *)
Definition get (db : Db) (id : Z) : Outcome * Db :=
  match List.find (has_id id) (posts db) with
  | None => (Sent 404 (Message (js "Post not found.")), db)
  | Some row => (Sent 200 (RowBody row), db)
  end.

(** The key and the parameters the upload route hands to the signer. *)
Definition s3Key (now : Z) (fileName : JsString) : JsString :=
  js "posts/" ++ decimal now ++ js "-" ++ sanitize fileName.

Definition s3_params (now : Z) (fileName : JsString) (fileType : JsValue)
  : S3Params :=
  mkS3Params S3_BUCKET_NAME (s3Key now fileName) URL_EXPIRATION_SECONDS
             fileType.

Definition fileUrl_of (key : JsString) : JsString :=
  js "https://" ++ ToString S3_BUCKET_NAME ++ js ".s3." ++
  ToString AWS_REGION ++ js ".amazonaws.com/" ++ key.

(** [POST /api/s3-presigned-url]; [fileName.replace] is a TypeError
    when [fileName] is not a string. *)
Definition presign (now : Z) (db : Db) (fileName fileType : JsValue)
  : Outcome * Db :=
  if jnot fileName || jnot fileType
  then (Sent 400 (Message (js "Missing file info.")), db)
  else
    match fileName with
    | JStr name =>
        let params := s3_params now name fileType in
        match getSignedUrl (js "putObject") params with
        | inl err =>
            (Sent 500 (Message
               (js "S3 URL generation failed. Details: " ++
                ToString (jor (s3_message err) (JStr (js "Unknown S3 error"))))),
             db)
        | inr uploadUrl =>
            (Sent 200 (GrantBody uploadUrl (fileUrl_of (Key params))), db)
        end
    | _ => (Uncaught, db)
    end.

(** ** Requests and runs of the server *)

Inductive Request : Type :=
  | Signup (salt : N) (fullName email password : JsValue)
  | Login (email password : JsValue)
  | Submit (now : Z) (title content author username imageUrl category : JsValue)
  | ListAll
  | ListApproved
  | ListPending
  | Approve (id : Z)
  | Reject (id : Z)
  | Delete (id : Z)
  | Get (id : Z)
  | Presign (now : Z) (fileName fileType : JsValue).

Definition handle (db : Db) (r : Request) : Outcome * Db :=
  match r with
  | Signup salt fullName email password => signup salt db fullName email password
  | Login email password => login db email password
  | Submit now title content author username imageUrl category =>
      submit now db title content author username imageUrl category
  | ListAll => listAll db
  | ListApproved => listApproved db
  | ListPending => listPending db
  | Approve id => approve db id
  | Reject id => reject db id
  | Delete id => delete_post db id
  | Get id => get db id
  | Presign now fileName fileType => presign now db fileName fileType
  end.

(** The store after a sequence of requests. *)
Definition run (db : Db) (rs : list Request) : Db :=
  fold_left (fun d r => snd (handle d r)) rs db.

End Routes.

(** ** A concrete set of collaborators, to run the routes *)

Definition demo_sqlText (v : JsValue) : JsString :=
  match v with
  | JBool true => js "1"
  | JBool false => js "0"
  | other => ToString other
  end.

Definition demo_hash (salt : N) (data : JsValue) (rounds : Z) : option JsString :=
  match data with
  | JStr s => Some (js "$2b$" ++ decimal rounds ++ js "$" ++
                    decimal (Z.of_N salt) ++ js "$" ++ rev s)
  | _ => None
  end.

Definition demo_compare (data : JsValue) (hash : JsString) : option bool :=
  match data with
  | JStr s => Some (bool_decide (take (S (length s)) (rev hash) = s ++ [36%N]))
  | _ => None
  end.

Definition demo_sign (op : JsString) (p : S3Params) : S3Error + JsString :=
  match ContentType p with
  | JStr t => inr (js "https://s3.example/" ++ Key p ++ js "?X-Amz-Expires=" ++
                   decimal (Expires p) ++ js "&Content-Type=" ++ t)
  | _ => inl (mkS3Error (JStr (js "Expected params.ContentType to be a string")))
  end.

#[global] Instance demo : Collaborators := {|
  sqlText := demo_sqlText;
  bcrypt_hash := demo_hash;
  bcrypt_compare := demo_compare;
  getSignedUrl := demo_sign;
  S3_BUCKET_NAME := JStr (js "blog-images");
  AWS_REGION := JStr (js "us-east-1")
|}.

(** * The vocabulary of the properties *)

(** ** Moderation *)

(** Two rows that agree on every column but [status]. *)
Definition same_but_status (p q : Post.t) : Prop :=
  Post.id q = Post.id p /\ Post.title q = Post.title p /\
  Post.content q = Post.content p /\ Post.author q = Post.author p /\
  Post.username q = Post.username p /\ Post.imageUrl q = Post.imageUrl p /\
  Post.category q = Post.category p /\ Post.createdAt q = Post.createdAt p.

(** Row by row: every column but [status] is kept, and a row with
    another key is kept whole. *)
Definition only_status_of (id : Z) (before after : list Post.t) : Prop :=
  Forall2 (fun p q => same_but_status p q /\ (Post.id p <> id -> q = p))
          before after.

(** What a moderation call leaves of the store: the users, both
    counters, and of the posts everything but the status of the rows with
    the given key. *)
Definition moderation_frame (id : Z) (db db' : Db) : Prop :=
  users db' = users db /\ users_seq db' = users_seq db /\
  posts_seq db' = posts_seq db /\
  length (posts db') = length (posts db) /\
  only_status_of id (posts db) (posts db').

(** ** Submission *)

(** The row a successful submission stores. *)
Definition submitted_row `{Collaborators} (now : Z) (db : Db)
    (title content author username imageUrl category : JsValue) : Post.t :=
  Post.mk (next_rowid (posts_seq db) (map Post.id (posts db)))
          (sqlText title) (sqlText content) (sqlText author)
          (Some (sqlText username))
          (if truthy imageUrl then Some (sqlText imageUrl) else None)
          (Some (sqlText category)) (Some (js "pending")) now.

(** ** Listings *)

(** A listing of the rows that satisfy [keep]: the reply carries exactly
    those rows, each as often as the table holds it, newest first. *)
Definition lists_newest_first (keep : Post.t -> Prop) (db : Db)
    (reply : Outcome * Db) : Prop :=
  exists rows,
    reply = (Sent 200 (RowsBody rows), db) /\
    StronglySorted newer_first rows /\
    (forall p, In p rows <-> In p (posts db) /\ keep p) /\
    (forall p, keep p ->
       count_occ Post_eq_dec rows p = count_occ Post_eq_dec (posts db) p).

(** ** The status of a post along a run *)

(** The three values the status of a post takes. *)
Definition valid_status (p : Post.t) : Prop :=
  Post.status p = Some (js "pending") \/
  Post.status p = Some (js "approved") \/
  Post.status p = Some (js "rejected").

(** The primary key is a key, and every status is one of the three. *)
Definition well_formed (db : Db) : Prop :=
  List.NoDup (map Post.id (posts db)) /\ Forall valid_status (posts db).

(** The moves of the status the data model names: none, or away from
    "pending". *)
Definition from_pending_only (p p' : Post.t) : Prop :=
  Post.status p' = Post.status p \/
  (Post.status p = Some (js "pending") /\
   (Post.status p' = Some (js "approved") \/
    Post.status p' = Some (js "rejected"))).

(** What a request does to the status of a post, [p] before and [p']
    after: the approve of this very post writes "approved", the reject of
    this very post writes "rejected", both whatever the status was, and
    any other request keeps the status. *)
Definition overwrite_step (r : Request) (p p' : Post.t) : Prop :=
  (r = Approve (Post.id p) -> Post.status p' = Some (js "approved")) /\
  (r = Reject (Post.id p) -> Post.status p' = Some (js "rejected")) /\
  (r <> Approve (Post.id p) -> r <> Reject (Post.id p) ->
   Post.status p' = Post.status p).

(** ** The sanitized file name, run by run *)

(** Following the words of the specification: the name is cut into its
    maximal runs, of whitespace and of other characters in turn ... *)
Fixpoint runs (s : JsString) : list (bool * JsString) :=
  match s with
  | [] => []
  | c :: rest =>
      match runs rest with
      | [] => [(is_space c, [c])]
      | (b, r) :: more =>
          if Bool.eqb (is_space c) b
          then (b, c :: r) :: more
          else (is_space c, [c]) :: (b, r) :: more
      end
  end.

(** ... a run of whitespace is replaced by one underscore ... *)
Definition underscore_for_run (run : bool * JsString) : JsString :=
  if fst run then [underscore] else snd run.

(** ... and then every character outside [A-Za-z0-9._-] is dropped. *)
Definition sanitize_by_runs (s : JsString) : JsString :=
  List.filter is_key_char (concat (map underscore_for_run (runs s))).

(** Neighbouring runs have different tags: the runs are maximal. *)
Fixpoint alternating (l : list (bool * JsString)) : Prop :=
  match l with
  | x :: ((y :: _) as rest) => fst x <> fst y /\ alternating rest
  | _ => True
  end.

(** ** Presence of a field *)

(** A string of one or more whitespace characters. *)
Definition blank (s : JsString) : Prop :=
  s <> [] /\ Forall (fun c => is_space c = true) s.

(** The reply of a route whose presence check is [missing]: the fixed
    400 and an untouched store when a field is missing, and some other
    outcome when none is. *)
Definition refuses_exactly_when (missing : Prop) (message : JsString)
    (db : Db) (reply : Outcome * Db) : Prop :=
  (missing -> reply = (Sent 400 (Message message), db)) /\
  (~ missing -> code_of (fst reply) <> Some 400).

(** ** Sample requests and stores *)

Definition sample_submit : Request :=
  Submit 1700000000 (JStr (js "T")) (JStr (js "C")) (JStr (js "Alice"))
         (JStr (js "alice")) JUndefined (JStr (js "tech")).

Definition sample_post (status : string) : Post.t :=
  Post.mk 1 (js "T") (js "C") (js "Alice") (Some (js "alice")) None
          (Some (js "tech")) (Some (js status)) 1700000000.

Definition one_post_db : Db := @run demo empty_db [sample_submit].

Definition ann_db : Db :=
  @run demo empty_db
       [Signup 7 (JStr (js "Ann")) (JStr (js "ann@example.org"))
               (JStr (js "s3cret"))].

Definition ann : User.t :=
  User.mk 1 (js "Ann") (js "ann@example.org") (js "$2b$10$7$terc3s").

Definition two_posts_db : Db := @run demo empty_db [sample_submit; sample_submit].

Definition later_post : Post.t :=
  Post.mk 2 (js "T") (js "C") (js "Alice") (Some (js "alice")) None
          (Some (js "tech")) (Some (js "pending")) 1700000100.

Definition three_slides : list JsString := [js ""; js ""; js ""].

(** * The rest of the repository *)

(** ** What a request does to the store *)

(** The requests that write: a registration or a submission answered
    201, an approve, a reject or a delete answered 200. *)
Definition writes (r : Request) (reply : Outcome) : Prop :=
  match r with
  | Signup _ _ _ _ => code_of reply = Some 201
  | Submit _ _ _ _ _ _ _ => code_of reply = Some 201
  | Approve _ => code_of reply = Some 200
  | Reject _ => code_of reply = Some 200
  | Delete _ => code_of reply = Some 200
  | _ => False
  end.

(** The reply of the four routes with an [:id] when no row matches. *)
Definition not_found_reply (db : Db) : Outcome * Db :=
  (Sent 404 (Message (js "Post not found.")), db).

(** [UNIQUE] on [users.email]. *)
Definition emails_unique (db : Db) : Prop :=
  List.NoDup (map User.email (users db)).

(** No key of [posts] is above the counter of the table. *)
Definition keys_below_counter (db : Db) : Prop :=
  Forall (fun p => Post.id p <= posts_seq db) (posts db).

(** The rows of a reply that lists posts. *)
Definition rows_of (reply : Outcome * Db) : list Post.t :=
  match fst reply with
  | Sent _ (RowsBody rows) => rows
  | _ => []
  end.

(** ** Characters of a storage key *)

(** The digits, [0-9], and the characters that end or split a path. *)
Definition is_digit (c : N) : bool := ((48 <=? c) && (c <=? 57))%N.

Definition slash : N := 47%N.

Definition hyphen : N := 45%N.

(** ** The form script, [script.js] *)

Module PostForm.

(** What the submit listener ends with: the two session items and the
    page it goes to, or the text it alerts. *)
Inductive Reaction : Type :=
  | Published (lastPostTitle postStatus href : JsString)
  | Alert (text : JsString).

(** [loggedInUsername || 'Guest User'], for [authorUsername] and for
    [authorDisplayName] alike. *)
Definition authorUsername (loggedInUsername : JsValue) : JsValue :=
  jor loggedInUsername (JStr (js "Guest User")).

Definition authorDisplayName (loggedInUsername : JsValue) : JsValue :=
  jor loggedInUsername (JStr (js "Guest User")).

(** The request the listener sends: the body has the four fields title,
    content, author and username; [now] is the clock of the server that
    receives it. *)
Definition request (now : Z) (postTitle postContent : JsString)
    (loggedInUsername : JsValue) : Request :=
  Submit now (JStr postTitle) (JStr postContent)
         (authorDisplayName loggedInUsername) (authorUsername loggedInUsername)
         JUndefined JUndefined.

(** [data.message] of the parsed reply. *)
Definition message_of (body : Body) : JsValue :=
  match body with
  | Message m => JStr m
  | LoginBody m _ _ _ => JStr m
  | _ => JUndefined
  end.

(** [response.ok]. *)
Definition ok (code : Z) : bool := (200 <=? code) && (code <=? 299).

(** The two branches after [await response.json()], from the status of
    the reply and [data.message]. *)
Definition react (postTitle : JsString) (code : Z) (message : JsValue)
  : Reaction :=
  if ok code
  then Published postTitle (js "success") (js "post-success.html")
  else Alert (js "Failed to publish post: " ++ ToString message).

End PostForm.

(** ** The earlier server, create-post endpoint *)

Module Earlier.

(** The JSON of a reply: a message and, after an insert, [postId]. *)
Record Reply : Type := mkReply {
  code : Z;
  message : JsString;
  postId : option Z
}.

(** [POST /api/posts] of the earlier server.  Its [posts] table has no
    category column: the row is given with NULL there.  The status and
    the image are bound parameters, [imageUrl || ''] and ['pending']. *)
Definition submit `{Collaborators} (now : Z) (db : Db)
    (title content author username imageUrl : JsValue) : Reply * Db :=
  if jnot title || jnot content || jnot author || jnot username
  then (mkReply 400
          (js "Title, content, author, and username are required.") None,
        db)
  else
    let status := JStr (js "pending") in
    let id := next_rowid (posts_seq db) (map Post.id (posts db)) in
    (mkReply 201 (js "Post created successfully!") (Some id),
     mkDb (users db) (users_seq db)
          (posts db ++
           [Post.mk id (sqlText title) (sqlText content) (sqlText author)
                    (Some (sqlText username))
                    (Some (sqlText (jor imageUrl (JStr []))))
                    None (Some (sqlText status)) now])
          id).

End Earlier.

(** ** The carousel, [carousel.js] *)

Module Carousel.

(** [currentSlide] and the [style.display] of each slide. *)
Record t : Type := mk {
  currentSlide : nat;
  slides : list JsString
}.

(** [showSlide(index)]: every slide gets "none", then [slides[index]]
    gets "block"; [None] is the TypeError of [slides[index].style] when
    there is no such slide. *)
Definition showSlide (index : nat) (slides : list JsString)
  : option (list JsString) :=
  let hidden := map (fun _ => js "none") slides in
  match hidden !! index with
  | Some _ => Some (<[index := js "block"]> hidden)
  | None => None
  end.

(** [nextSlide()]; with no slide the index is [NaN] and [showSlide]
    throws. *)
Definition nextSlide (c : t) : option t :=
  match length (slides c) with
  | O => None
  | S _ as n =>
      let current := ((currentSlide c + 1) mod n)%nat in
      option_map (mk current) (showSlide current (slides c))
  end.

(** The script at load time: [currentSlide] is 0 and it is shown. *)
Definition init (displays : list JsString) : option t :=
  option_map (mk 0%nat) (showSlide 0%nat displays).

(** [k] firings of the interval timer. *)
Fixpoint ticks (k : nat) (c : t) : option t :=
  match k with
  | O => Some c
  | S k' =>
      match nextSlide c with
      | Some c' => ticks k' c'
      | None => None
      end
  end.

(** The displays in which slide [i] alone is shown. *)
Definition only_shown (i n : nat) : list JsString :=
  <[i := js "block"]> (replicate n (js "none")).

End Carousel.

(** * Properties *)

(** ** Values and literals *)

Lemma truthy_JStr (s : JsString) : truthy (JStr s) = true <-> s <> [].
Proof. destruct s; simpl; split; congruence. Qed.

Lemma jnot_false_truthy (v : JsValue) : jnot v = false <-> truthy v = true.
Proof. unfold jnot. destruct (truthy v); simpl; split; congruence. Qed.

Lemma status_literals_distinct :
  js "pending" <> js "approved" /\ js "pending" <> js "rejected" /\
  js "approved" <> js "rejected".
Proof. repeat split; discriminate. Qed.

(** ** Rows and keys *)

Lemma has_id_true (id : Z) (p : Post.t) : has_id id p = true <-> Post.id p = id.
Proof. unfold has_id. apply bool_decide_eq_true. Qed.

Lemma has_id_false (id : Z) (p : Post.t) : has_id id p = false <-> Post.id p <> id.
Proof. unfold has_id. apply bool_decide_eq_false. Qed.

Lemma foldr_max_bound (ids : list Z) (x : Z) : In x ids -> x <= foldr Z.max 0 ids.
Proof.
  induction ids as [|y ids IH]; simpl; [tauto|].
  intros [->|Hin]; [lia|]. specialize (IH Hin). lia.
Qed.

Lemma next_rowid_fresh (seq : Z) (ids : list Z) (x : Z) :
  In x ids -> x < next_rowid seq ids.
Proof. intros Hin%foldr_max_bound. unfold next_rowid. lia. Qed.

Lemma find_fresh_last (id : Z) (rows : list Post.t) (p : Post.t) :
  (forall q, In q rows -> Post.id q <> id) -> Post.id p = id ->
  List.find (has_id id) (rows ++ [p]) = Some p.
Proof.
  intros Hfresh Hp. induction rows as [|q rows IH]; simpl.
  - apply has_id_true in Hp. now rewrite Hp.
  - assert (Hq : has_id id q = false) by (apply has_id_false, Hfresh; now left).
    rewrite Hq. apply IH. intros r Hr. apply Hfresh. now right.
Qed.

(** ** What an UPDATE of the status does to the rows *)

Lemma set_status_same (lit : JsString) (p : Post.t) :
  same_but_status p (Post.set_status lit p).
Proof. unfold same_but_status. simpl. tauto. Qed.

Lemma same_but_status_refl (p : Post.t) : same_but_status p p.
Proof. unfold same_but_status. tauto. Qed.

Lemma update_status_frame (lit : JsString) (id : Z) (rows : list Post.t) :
  only_status_of id rows (fst (update_status lit id rows)).
Proof.
  unfold only_status_of, update_status. simpl.
  induction rows as [|p rows IH]; simpl; constructor; try exact IH.
  destruct (has_id id p) eqn:E.
  - split; [apply set_status_same|]. apply has_id_true in E. congruence.
  - split; [apply same_but_status_refl|reflexivity].
Qed.

Lemma update_status_hit (lit : JsString) (id : Z) (rows : list Post.t) (q : Post.t) :
  In q (fst (update_status lit id rows)) -> Post.id q = id ->
  Post.status q = Some lit.
Proof.
  unfold update_status. simpl. intros Hin Hid.
  apply in_map_iff in Hin as (p & Hq & _).
  destruct (has_id id p) eqn:E; subst q; [reflexivity|].
  apply has_id_false in E. congruence.
Qed.

Lemma update_status_changes (lit : JsString) (id : Z) (rows : list Post.t) :
  (exists p, In p rows /\ Post.id p = id) <->
  snd (update_status lit id rows) <> 0%nat.
Proof.
  unfold update_status. simpl. split.
  - intros (p & Hin & Hid) Hlen. apply length_zero_iff_nil in Hlen.
    assert (Hp : In p (List.filter (has_id id) rows))
      by (apply filter_In; split; [exact Hin|now apply has_id_true]).
    rewrite Hlen in Hp. destruct Hp.
  - intros Hlen. destruct (List.filter (has_id id) rows) as [|p l] eqn:E;
      [now destruct Hlen|].
    assert (Hp : In p (List.filter (has_id id) rows)) by (rewrite E; now left).
    apply filter_In in Hp as [Hin Hid]. exists p. split; [exact Hin|].
    now apply has_id_true.
Qed.

Lemma update_status_keeps_ids (lit : JsString) (id : Z) (rows : list Post.t) :
  map Post.id (fst (update_status lit id rows)) = map Post.id rows.
Proof.
  unfold update_status. simpl. rewrite map_map. apply map_ext.
  intros p. now destruct (has_id id p).
Qed.

Lemma find_after_update (lit : JsString) (id : Z) (rows : list Post.t) :
  List.find (has_id id) (fst (update_status lit id rows)) =
  option_map (Post.set_status lit) (List.find (has_id id) rows).
Proof.
  unfold update_status. simpl. induction rows as [|p rows IH]; simpl; [reflexivity|].
  destruct (has_id id p) eqn:E.
  - assert (E' : has_id id (Post.set_status lit p) = true)
      by (apply has_id_true; apply has_id_true in E; exact E).
    now rewrite E'.
  - now rewrite E.
Qed.

Lemma approve_unfold (db : Db) (id : Z) :
  snd (approve db id) = with_posts db (fst (update_status (js "approved") id (posts db))).
Proof.
  unfold approve. destruct (update_status _ _ _) as [rows n]. simpl.
  now destruct (Nat.eqb n 0).
Qed.

Lemma reject_unfold (db : Db) (id : Z) :
  snd (reject db id) = with_posts db (fst (update_status (js "rejected") id (posts db))).
Proof.
  unfold reject. destruct (update_status _ _ _) as [rows n]. simpl.
  now destruct (Nat.eqb n 0).
Qed.

Lemma approve_reply (db : Db) (id : Z) :
  (exists p, In p (posts db) /\ Post.id p = id) ->
  fst (approve db id) = Sent 200 (Message (js "Post approved.")).
Proof.
  intros Hex. apply (update_status_changes (js "approved")) in Hex.
  unfold approve. destruct (update_status _ _ _) as [rows n]. simpl in *.
  destruct n; [now destruct Hex|reflexivity].
Qed.

Lemma reject_reply (db : Db) (id : Z) :
  (exists p, In p (posts db) /\ Post.id p = id) ->
  fst (reject db id) = Sent 200 (Message (js "Post rejected.")).
Proof.
  intros Hex. apply (update_status_changes (js "rejected")) in Hex.
  unfold reject. destruct (update_status _ _ _) as [rows n]. simpl in *.
  destruct n; [now destruct Hex|reflexivity].
Qed.

Lemma with_posts_frame (lit : JsString) (id : Z) (db : Db) :
  moderation_frame id db (with_posts db (fst (update_status lit id (posts db)))).
Proof.
  unfold moderation_frame. simpl. repeat split.
  - unfold update_status. simpl. apply length_map.
  - apply update_status_frame.
Qed.

(** C9: approve(id) and reject(id) change nothing but the status of the
    post with the given id: every other column of every post is kept,
    every post with another id is kept whole, the posts are as many as
    before and in the same places, and the users are untouched. *)
Theorem moderation_changes_only_status (db : Db) (id : Z) :
  moderation_frame id db (snd (approve db id)) /\
  moderation_frame id db (snd (reject db id)).
Proof.
  rewrite approve_unfold, reject_unfold. split; apply with_posts_frame.
Qed.

(** C3: on an id that exists, approve followed by reject answers 200
    both times and leaves the post rejected: reading it back gives a row
    whose status is "rejected", and so is every row with that id. *)
Theorem approve_then_reject (db : Db) (id : Z) :
  (exists p, In p (posts db) /\ Post.id p = id) ->
  let db1 := snd (approve db id) in
  let db2 := snd (reject db1 id) in
  fst (approve db id) = Sent 200 (Message (js "Post approved.")) /\
  fst (reject db1 id) = Sent 200 (Message (js "Post rejected.")) /\
  (exists q, get db2 id = (Sent 200 (RowBody q), db2) /\
             Post.status q = Some (js "rejected")) /\
  (forall q, In q (posts db2) -> Post.id q = id ->
             Post.status q = Some (js "rejected")).
Proof.
  intros Hex db1 db2.
  assert (Hex1 : exists p, In p (posts db1) /\ Post.id p = id).
  { destruct Hex as (p & Hin & Hid). subst db1. rewrite approve_unfold. simpl.
    exists (Post.set_status (js "approved") p). split; [|exact Hid].
    unfold update_status. simpl. apply in_map_iff. exists p. split; [|exact Hin].
    apply has_id_true in Hid. now rewrite Hid. }
  split; [now apply approve_reply|]. split; [now apply reject_reply|].
  assert (Hall : forall q, In q (posts db2) -> Post.id q = id ->
                           Post.status q = Some (js "rejected")).
  { subst db2. rewrite reject_unfold. simpl. apply update_status_hit. }
  split; [|exact Hall].
  unfold get. destruct (List.find (has_id id) (posts db2)) as [q|] eqn:E.
  - exists q. split; [reflexivity|]. apply find_some in E as [Hin Hid].
    apply Hall; [exact Hin|now apply has_id_true].
  - exfalso. subst db2. rewrite reject_unfold in E.
    unfold with_posts in E. cbn [posts] in E.
    rewrite find_after_update in E. destruct Hex1 as (p & Hin & Hid).
    destruct (List.find (has_id id) (posts db1)) eqn:E1; [discriminate|].
    apply (find_none _ _ E1) in Hin. apply has_id_true in Hid. congruence.
Qed.

(** ** Submitting a post *)

Section Submit.
Context `{Collaborators}.

Lemma jor_null_image (imageUrl : JsValue) :
  match jor imageUrl JNull with
  | JNull => None
  | v => Some (sqlText v)
  end = if truthy imageUrl then Some (sqlText imageUrl) else None.
Proof.
  unfold jor. destruct imageUrl as [| |[]|n|[|c s]]; simpl; try reflexivity.
  now destruct (n =? 0).
Qed.

Lemma submit_rejected (now : Z) (db : Db)
    (title content author username imageUrl category : JsValue) :
  jnot title || jnot content || jnot author || jnot username || jnot category
    = true ->
  submit now db title content author username imageUrl category =
  (Sent 400 (Message (js "Missing fields.")), db).
Proof. intros Hg. unfold submit. now rewrite Hg. Qed.

Lemma submit_accepted (now : Z) (db : Db)
    (title content author username imageUrl category : JsValue) :
  jnot title || jnot content || jnot author || jnot username || jnot category
    = false ->
  submit now db title content author username imageUrl category =
  (Sent 201 (Message (js "Post created successfully.")),
   mkDb (users db) (users_seq db)
        (posts db ++ [submitted_row now db title content author username
                                    imageUrl category])
        (next_rowid (posts_seq db) (map Post.id (posts db)))).
Proof.
  intros Hg. unfold submit. rewrite Hg. cbv zeta. rewrite jor_null_image.
  reflexivity.
Qed.

Lemma guard5_false (a b c d e : bool) :
  a || b || c || d || e = false <->
  a = false /\ b = false /\ c = false /\ d = false /\ e = false.
Proof. destruct a, b, c, d, e; simpl; intuition congruence. Qed.

(** C6: a submission that is accepted stores its post with status
    "pending": the key the store assigned belongs to no earlier post, and
    reading that key back right away gives the new row, whose status is
    "pending". *)
Theorem submit_is_pending (now : Z) (db : Db)
    (title content author username imageUrl category : JsValue) :
  let result := submit now db title content author username imageUrl category in
  code_of (fst result) = Some 201 ->
  let db' := snd result in
  let id := posts_seq db' in
  (forall q, In q (posts db) -> Post.id q <> id) /\
  length (posts db') = S (length (posts db)) /\
  exists p, get db' id = (Sent 200 (RowBody p), db') /\
            In p (posts db') /\ Post.id p = id /\
            Post.status p = Some (js "pending").
Proof.
  intros result Hcode db' id.
  destruct (jnot title || jnot content || jnot author || jnot username
            || jnot category) eqn:Hg.
  { subst result. rewrite submit_rejected in Hcode by exact Hg. discriminate. }
  subst db' id result. rewrite submit_accepted by exact Hg. cbn [snd posts posts_seq].
  set (row := submitted_row _ _ _ _ _ _ _ _).
  assert (Hfresh : forall q, In q (posts db) ->
            Post.id q <> next_rowid (posts_seq db) (map Post.id (posts db))).
  { intros q Hq. pose proof (next_rowid_fresh (posts_seq db) _ (Post.id q)
                               (in_map Post.id _ _ Hq)). lia. }
  split; [exact Hfresh|]. split.
  { rewrite length_app. simpl. lia. }
  exists row. unfold get. cbn [posts].
  rewrite (find_fresh_last _ _ row Hfresh eq_refl).
  repeat split. apply in_or_app. right. now left.
Qed.

(** C2, as the route does it: a submission is refused with 400 exactly
    when one of title, content, author, username and category is falsy
    (absent, null, the empty string, 0 or false), and a refusal stores
    nothing.  Otherwise the answer is 201 and one post is added, with the
    category that was sent and with imageUrl NULL when none was sent. *)
Theorem submit_validation (now : Z) (db : Db)
    (title content author username imageUrl category : JsValue) :
  let result := submit now db title content author username imageUrl category in
  (code_of (fst result) = Some 400 <->
   truthy title = false \/ truthy content = false \/ truthy author = false \/
   truthy username = false \/ truthy category = false) /\
  (code_of (fst result) = Some 400 ->
   result = (Sent 400 (Message (js "Missing fields.")), db)) /\
  (code_of (fst result) <> Some 400 ->
   fst result = Sent 201 (Message (js "Post created successfully.")) /\
   exists p, posts (snd result) = posts db ++ [p] /\
             Post.category p = Some (sqlText category) /\
             Post.imageUrl p =
               (if truthy imageUrl then Some (sqlText imageUrl) else None) /\
             Post.status p = Some (js "pending") /\
             Post.createdAt p = now).
Proof.
  intros result.
  destruct (jnot title || jnot content || jnot author || jnot username
            || jnot category) eqn:Hg.
  - assert (Hr : result = (Sent 400 (Message (js "Missing fields.")), db))
      by (subst result; now apply submit_rejected).
    rewrite Hr. cbn [fst snd code_of]. split; [|split].
    + split; [intros _|reflexivity].
      destruct (truthy title) eqn:?, (truthy content) eqn:?,
               (truthy author) eqn:?, (truthy username) eqn:?,
               (truthy category) eqn:?; auto.
      unfold jnot in Hg.
      repeat match goal with E : truthy _ = _ |- _ => rewrite E in Hg; clear E end.
      discriminate.
    + reflexivity.
    + congruence.
  - assert (Hr := submit_accepted now db title content author username imageUrl
                                  category Hg).
    fold result in Hr. rewrite Hr. cbn [fst snd code_of posts].
    apply guard5_false in Hg as (Ht & Hc & Ha & Hu & Hk).
    unfold jnot in *. split; [|split].
    + split; [discriminate|].
      destruct (truthy title), (truthy content), (truthy author),
               (truthy username), (truthy category); simpl in *;
        try discriminate; intuition discriminate.
    + discriminate.
    + intros _. split; [reflexivity|]. eexists. split; [reflexivity|].
      repeat split.
Qed.

End Submit.

(** ** Listings *)

#[global] Instance newer_first_total : Total newer_first.
Proof. intros p q. unfold newer_first. lia. Qed.

#[global] Instance newer_first_trans : Transitive newer_first.
Proof. intros p q r. unfold newer_first. lia. Qed.

Lemma order_by_sorted (rows : list Post.t) :
  StronglySorted newer_first (order_by_createdAt_desc rows).
Proof. apply StronglySorted_merge_sort; apply _. Qed.

Lemma order_by_perm (rows : list Post.t) :
  Permutation (order_by_createdAt_desc rows) rows.
Proof. apply merge_sort_Permutation. Qed.

Lemma has_status_true (lit : JsString) (p : Post.t) :
  has_status lit p = true <-> Post.status p = Some lit.
Proof. unfold has_status. apply bool_decide_eq_true. Qed.

Lemma filter_listing (lit : JsString) (db : Db) :
  lists_newest_first (fun p => Post.status p = Some lit) db
    (Sent 200 (RowsBody (order_by_createdAt_desc
                           (List.filter (has_status lit) (posts db)))), db).
Proof.
  eexists. split; [reflexivity|]. split; [apply order_by_sorted|].
  pose proof (order_by_perm (List.filter (has_status lit) (posts db))) as Hperm.
  split.
  - intros p. rewrite <- has_status_true, <- filter_In. split; intros Hin.
    + eapply Permutation_in; [exact Hperm|exact Hin].
    + eapply Permutation_in; [symmetry; exact Hperm|exact Hin].
  - intros p Hp. rewrite (Permutation_count_occ Post_eq_dec) in Hperm.
    rewrite Hperm. clear Hperm.
    induction (posts db) as [|q rows IH]; [reflexivity|].
    simpl. destruct (has_status lit q) eqn:E; simpl.
    + destruct (Post_eq_dec q p); now rewrite IH.
    + destruct (Post_eq_dec q p) as [->|]; [|exact IH].
      apply has_status_true in Hp. congruence.
Qed.

(** C7: after any sequence of requests, listAll answers with every
    stored post, newest first, and the approved listing answers with
    exactly the posts whose status is "approved", newest first: a post
    that is pending or rejected is never in it. *)
Theorem listings_newest_first `{Collaborators} (db0 : Db) (rs : list Request) :
  let db := run db0 rs in
  lists_newest_first (fun _ => True) db (listAll db) /\
  lists_newest_first (fun p => Post.status p = Some (js "approved")) db
                     (listApproved db) /\
  (forall p rows, listApproved db = (Sent 200 (RowsBody rows), db) ->
     In p rows ->
     Post.status p <> Some (js "pending") /\
     Post.status p <> Some (js "rejected")).
Proof.
  intros db. split; [|split].
  - exists (order_by_createdAt_desc (posts db)). split; [reflexivity|].
    split; [apply order_by_sorted|]. pose proof (order_by_perm (posts db)) as Hperm.
    split.
    + intros p. split.
      * intros Hin. split; [|exact I]. eapply Permutation_in; eassumption.
      * intros [Hin _]. eapply Permutation_in; [symmetry|]; eassumption.
    + intros p _. now rewrite (Permutation_count_occ Post_eq_dec) in Hperm.
  - apply filter_listing.
  - intros p rows Heq Hin.
    destruct (filter_listing (js "approved") db) as (rows' & Heq' & _ & Hmem & _).
    unfold listApproved in Heq. rewrite Heq in Heq'.
    injection Heq' as <-. apply Hmem in Hin as [_ Hst]. rewrite Hst.
    split; discriminate.
Qed.

(** ** The status of a post along a run *)

Lemma key_determines_row (rows : list Post.t) (p q : Post.t) :
  List.NoDup (map Post.id rows) -> In p rows -> In q rows ->
  Post.id q = Post.id p -> q = p.
Proof.
  induction rows as [|r rows IH]; simpl; [tauto|].
  intros Hnd Hp Hq Hid. apply List.NoDup_cons_iff in Hnd as [Hnotin Hnd].
  destruct Hp as [->|Hp], Hq as [->|Hq]; auto.
  - exfalso. apply Hnotin. rewrite <- Hid. now apply in_map.
  - exfalso. apply Hnotin. rewrite Hid. now apply in_map.
Qed.

Lemma NoDup_map_filter (keep : Post.t -> bool) (rows : list Post.t) :
  List.NoDup (map Post.id rows) -> List.NoDup (map Post.id (List.filter keep rows)).
Proof.
  induction rows as [|r rows IH]; simpl; [auto|].
  intros [Hnotin Hnd]%List.NoDup_cons_iff. destruct (keep r); simpl; [|auto].
  apply List.NoDup_cons_iff. split; [|auto]. intros Hin. apply Hnotin.
  apply in_map_iff in Hin as (q & Hid & Hq). apply filter_In in Hq as [Hq _].
  rewrite <- Hid. now apply in_map.
Qed.

Lemma update_status_well_formed (lit : JsString) (id : Z) (db : Db) :
  (lit = js "approved" \/ lit = js "rejected") ->
  well_formed db ->
  well_formed (with_posts db (fst (update_status lit id (posts db)))).
Proof.
  intros Hlit [Hnd Hall]. split; cbn [posts with_posts].
  - now rewrite update_status_keeps_ids.
  - unfold update_status. cbn [fst]. apply List.Forall_forall. intros q Hq.
    apply in_map_iff in Hq as (p & <- & Hp).
    destruct (has_id id p).
    + unfold valid_status. simpl. destruct Hlit as [->| ->]; auto.
    + rewrite List.Forall_forall in Hall. now apply Hall.
Qed.

Section Run.
Context `{Collaborators}.

Lemma signup_keeps_posts (salt : N) (db : Db) (fullName email password : JsValue) :
  posts (snd (signup salt db fullName email password)) = posts db.
Proof.
  unfold signup. destruct (_ || _); [reflexivity|].
  destruct (bcrypt_hash _ _ _); [|reflexivity].
  unfold insert_user. destruct (existsb _ (users db)); [|reflexivity].
  now destruct (includes _ _).
Qed.

Lemma login_keeps_db (db : Db) (email password : JsValue) :
  snd (login db email password) = db.
Proof.
  unfold login. destruct (_ || _); [reflexivity|].
  destruct (select_user_by_email _ _); [|reflexivity].
  now destruct (bcrypt_compare _ _) as [[]|].
Qed.

Lemma presign_keeps_db (now : Z) (db : Db) (fileName fileType : JsValue) :
  snd (presign now db fileName fileType) = db.
Proof.
  unfold presign. destruct (_ || _); [reflexivity|].
  destruct fileName; try reflexivity. now destruct (getSignedUrl _ _).
Qed.

Lemma get_keeps_db (db : Db) (id : Z) : snd (get db id) = db.
Proof. unfold get. now destruct (List.find _ _). Qed.

Lemma delete_unfold (db : Db) (id : Z) :
  snd (delete_post db id) =
  with_posts db (List.filter (fun p => negb (has_id id p)) (posts db)).
Proof. unfold delete_post, delete_rows. now destruct (Nat.eqb _ 0). Qed.

(** The posts after a request, case by case. *)
Lemma posts_after (db : Db) (r : Request) :
  match r with
  | Submit now title content author username imageUrl category =>
      posts (snd (handle db r)) = posts db \/
      posts (snd (handle db r)) =
        posts db ++ [submitted_row now db title content author username
                                   imageUrl category]
  | Approve id =>
      posts (snd (handle db r)) = fst (update_status (js "approved") id (posts db))
  | Reject id =>
      posts (snd (handle db r)) = fst (update_status (js "rejected") id (posts db))
  | Delete id =>
      posts (snd (handle db r)) =
        List.filter (fun p => negb (has_id id p)) (posts db)
  | _ => posts (snd (handle db r)) = posts db
  end.
Proof.
  destruct r; cbn [handle].
  - apply signup_keeps_posts.
  - now rewrite login_keeps_db.
  - destruct (jnot title || jnot content || jnot author || jnot username
              || jnot category) eqn:Hg.
    + left. now rewrite submit_rejected.
    + right. now rewrite submit_accepted.
  - reflexivity.
  - reflexivity.
  - reflexivity.
  - now rewrite approve_unfold.
  - now rewrite reject_unfold.
  - now rewrite delete_unfold.
  - now rewrite get_keeps_db.
  - now rewrite presign_keeps_db.
Qed.

Lemma submitted_row_fresh (now : Z) (db : Db)
    (title content author username imageUrl category : JsValue) (p : Post.t) :
  In p (posts db) ->
  Post.id (submitted_row now db title content author username imageUrl category)
    <> Post.id p.
Proof.
  intros Hp. simpl.
  pose proof (next_rowid_fresh (posts_seq db) _ _ (in_map Post.id _ _ Hp)). lia.
Qed.

Lemma handle_well_formed (db : Db) (r : Request) :
  well_formed db -> well_formed (snd (handle db r)).
Proof.
  intros Hwf. pose proof (posts_after db r) as Hposts.
  destruct r;
    try (destruct Hwf as [Hnd Hall]; split; rewrite Hposts; assumption).
  - destruct Hposts as [Hposts|Hposts];
      destruct Hwf as [Hnd Hall]; split; rewrite Hposts; try assumption.
    + rewrite map_app. simpl. apply List.NoDup_app; [exact Hnd| |].
      * repeat constructor. intros [].
      * intros x Hx [Heq|[]]. apply in_map_iff in Hx as (p & Hid & Hp).
        apply (submitted_row_fresh now db title content author username
                                   imageUrl category p Hp).
        simpl. rewrite Hid. exact Heq.
    + apply Forall_app. split; [exact Hall|]. repeat constructor.
  - cbn [handle]. rewrite approve_unfold.
    apply update_status_well_formed; auto.
  - cbn [handle]. rewrite reject_unfold.
    apply update_status_well_formed; auto.
  - destruct Hwf as [Hnd Hall]. split; rewrite Hposts.
    + now apply NoDup_map_filter.
    + apply List.Forall_forall. intros p [Hp _]%filter_In.
      rewrite List.Forall_forall in Hall. now apply Hall.
Qed.

Lemma run_well_formed (rs : list Request) (db : Db) :
  well_formed db -> well_formed (run db rs).
Proof.
  revert db. induction rs as [|r rs IH]; intros db Hwf; [exact Hwf|].
  apply IH, handle_well_formed, Hwf.
Qed.

Lemma handle_overwrites (db : Db) (r : Request) (p p' : Post.t) :
  well_formed db -> In p (posts db) -> In p' (posts (snd (handle db r))) ->
  Post.id p' = Post.id p -> overwrite_step r p p'.
Proof.
  intros [Hnd _] Hp Hp' Hid. pose proof (posts_after db r) as Hposts.
  assert (Hsame : In p' (posts db) -> Post.status p' = Post.status p).
  { intros Hin. f_equal. now apply (key_determines_row (posts db)). }
  assert (Hupd : forall lit id,
            In p' (fst (update_status lit id (posts db))) ->
            (id = Post.id p /\ Post.status p' = Some lit) \/
            (id <> Post.id p /\ Post.status p' = Post.status p)).
  { intros lit id Hin. unfold update_status in Hin. cbn [fst] in Hin.
    apply in_map_iff in Hin as (q & Hq & Hin).
    destruct (has_id id q) eqn:E; subst p'.
    - left. apply has_id_true in E. cbn [Post.id Post.set_status] in Hid.
      split; [congruence|reflexivity].
    - right. apply has_id_false in E.
      assert (q = p) by (now apply (key_determines_row (posts db))). subst q.
      split; [congruence|reflexivity]. }
  unfold overwrite_step.
  destruct r;
    try (rewrite Hposts in Hp';
         split; [discriminate|split; [discriminate|intros _ _; now apply Hsame]]).
  - split; [discriminate|split; [discriminate|intros _ _]].
    destruct Hposts as [Hposts|Hposts]; rewrite Hposts in Hp'; [now apply Hsame|].
    apply in_app_or in Hp' as [Hin|[<-|[]]]; [now apply Hsame|].
    exfalso. eapply submitted_row_fresh; eassumption.
  - rewrite Hposts in Hp'.
    destruct (Hupd _ _ Hp') as [[-> Hst]|[Hne Hst]].
    + split; [intros _; exact Hst|split; [discriminate|]].
      intros Hno. now destruct Hno.
    + split; [intros [= ->]; now destruct Hne|split; [discriminate|]].
      intros _ _. exact Hst.
  - rewrite Hposts in Hp'.
    destruct (Hupd _ _ Hp') as [[-> Hst]|[Hne Hst]].
    + split; [discriminate|split; [intros _; exact Hst|]].
      intros _ Hno. now destruct Hno.
    + split; [discriminate|split; [intros [= ->]; now destruct Hne|]].
      intros _ _. exact Hst.
  - split; [discriminate|split; [discriminate|intros _ _]].
    rewrite Hposts in Hp'. apply filter_In in Hp' as [Hin _]. now apply Hsame.
Qed.

Lemma handle_never_back_to_pending (db : Db) (r : Request) (p p' : Post.t) :
  well_formed db -> In p (posts db) -> In p' (posts (snd (handle db r))) ->
  Post.id p' = Post.id p ->
  Post.status p <> Some (js "pending") -> Post.status p' <> Some (js "pending").
Proof.
  intros Hwf Hp Hp' Hid Hnot.
  destruct (handle_overwrites db r p p' Hwf Hp Hp' Hid) as (Ha & Hr & Hk).
  destruct r; try (rewrite Hk by discriminate; exact Hnot).
  - destruct (decide (id = Post.id p)) as [->|Hne].
    + rewrite Ha by reflexivity. discriminate.
    + rewrite Hk; [exact Hnot|congruence|discriminate].
  - destruct (decide (id = Post.id p)) as [->|Hne].
    + rewrite Hr by reflexivity. discriminate.
    + rewrite Hk; [exact Hnot|discriminate|congruence].
Qed.

Lemma handle_keeps_post (db : Db) (r : Request) (p : Post.t) :
  r <> Delete (Post.id p) -> In p (posts db) ->
  exists p', In p' (posts (snd (handle db r))) /\ Post.id p' = Post.id p.
Proof.
  intros Hr Hp. pose proof (posts_after db r) as Hposts.
  assert (Hupd : forall lit id,
            exists p', In p' (fst (update_status lit id (posts db))) /\
                       Post.id p' = Post.id p).
  { intros lit id. unfold update_status. cbn [fst].
    exists (if has_id id p then Post.set_status lit p else p).
    split; [|now destruct (has_id id p)].
    exact (in_map (fun q => if has_id id q then Post.set_status lit q else q)
                  (posts db) p Hp). }
  destruct r; try (exists p; rewrite Hposts; now split).
  - destruct Hposts as [Hposts|Hposts]; exists p; rewrite Hposts;
      (split; [|reflexivity]); [exact Hp|apply in_or_app; now left].
  - rewrite Hposts. apply Hupd.
  - rewrite Hposts. apply Hupd.
  - exists p. rewrite Hposts. split; [|reflexivity].
    apply filter_In. split; [exact Hp|].
    apply Bool.negb_true_iff, has_id_false. congruence.
Qed.

(** C1, as the routes do it: along any run from a well-formed store the
    status of every post is one of "pending", "approved" and "rejected".
    The approve of a post writes "approved" and the reject of a post
    writes "rejected" over whatever its status was, pending or not; every
    other request keeps the status of a post, and only the delete of a
    post removes it.  A status that is not "pending" never becomes
    "pending". *)
Theorem status_overwrite_invariant (db0 : Db) (rs : list Request) :
  well_formed db0 ->
  let db := run db0 rs in
  Forall valid_status (posts db) /\
  forall r p,
    In p (posts db) ->
    (r <> Delete (Post.id p) ->
     exists p', In p' (posts (snd (handle db r))) /\ Post.id p' = Post.id p) /\
    forall p',
      In p' (posts (snd (handle db r))) -> Post.id p' = Post.id p ->
      overwrite_step r p p' /\
      (Post.status p <> Some (js "pending") ->
       Post.status p' <> Some (js "pending")).
Proof.
  intros Hwf db. pose proof (run_well_formed rs db0 Hwf) as Hrun.
  split; [apply Hrun|]. intros r p Hp. split.
  - intros Hr. now apply handle_keeps_post.
  - intros p' Hp' Hid. split.
    + now apply (handle_overwrites db).
    + now apply (handle_never_back_to_pending db r p p').
Qed.

End Run.

(** ** Accounts *)

Lemma unique_message_includes_UNIQUE :
  includes (sqlite_message unique_email_failed) (js "UNIQUE") = true.
Proof. reflexivity. Qed.

Lemma existsb_email (email : JsString) (rows : list User.t) (u : User.t) :
  In u rows -> User.email u = email ->
  existsb (fun u => bool_decide (User.email u = email)) rows = true.
Proof.
  intros Hin Heq. apply existsb_exists. exists u. split; [exact Hin|].
  now apply bool_decide_eq_true.
Qed.

Section Accounts.
Context `{Collaborators}.

Lemma signup_stores_email (salt : N) (db : Db) (fullName email password : JsValue) :
  code_of (fst (signup salt db fullName email password)) = Some 201 ->
  exists u, In u (users (snd (signup salt db fullName email password))) /\
            User.email u = sqlText email.
Proof.
  unfold signup. destruct (_ || _); [discriminate|].
  destruct (bcrypt_hash _ _ _); [|discriminate].
  unfold insert_user. destruct (existsb _ (users db)).
  - destruct (includes _ _); discriminate.
  - intros _. eexists. split; [apply in_or_app; right; now left|reflexivity].
Qed.

Lemma signup_failure_keeps_db (salt : N) (db : Db) (fullName email password : JsValue) :
  code_of (fst (signup salt db fullName email password)) <> Some 201 ->
  snd (signup salt db fullName email password) = db.
Proof.
  unfold signup. destruct (_ || _); [reflexivity|].
  destruct (bcrypt_hash _ _ _); [|reflexivity].
  unfold insert_user. destruct (existsb _ (users db)).
  - now destruct (includes _ _).
  - simpl. congruence.
Qed.

(** C5: when a user with this email is already stored, a registration
    with all three fields present is answered 409 "Email already exists."
    and leaves the store exactly as it was, the stored user included. *)
Theorem signup_duplicate_email (salt : N) (db : Db) (u : User.t)
    (fullName email password : JsValue) (hashedPassword : JsString) :
  In u (users db) -> User.email u = sqlText email ->
  truthy fullName = true -> truthy email = true -> truthy password = true ->
  bcrypt_hash salt password 10 = Some hashedPassword ->
  signup salt db fullName email password =
    (Sent 409 (Message (js "Email already exists.")), db) /\
  In u (users (snd (signup salt db fullName email password))).
Proof.
  intros Hin Hemail Hf He Hp Hhash.
  assert (Hreply : signup salt db fullName email password =
                   (Sent 409 (Message (js "Email already exists.")), db)).
  { unfold signup, jnot. rewrite Hf, He, Hp, Hhash. cbn [negb orb].
    unfold insert_user. rewrite (existsb_email _ _ u Hin Hemail).
    now rewrite unique_message_includes_UNIQUE. }
  split; [exact Hreply|]. now rewrite Hreply.
Qed.

(** C4: a login with an email that no user has, and a login with the
    email of a user and a password that bcrypt finds not to match the
    stored hash, get the same reply, 401 "Invalid credentials.", and
    neither changes the store. *)
Theorem login_failures_alike (db : Db) (user : User.t)
    (email1 password1 email2 password2 : JsValue) :
  truthy email1 = true -> truthy password1 = true ->
  truthy email2 = true -> truthy password2 = true ->
  select_user_by_email db (sqlText email1) = None ->
  select_user_by_email db (sqlText email2) = Some user ->
  bcrypt_compare password2 (User.password user) = Some false ->
  login db email1 password1 = (Sent 401 (Message (js "Invalid credentials.")), db) /\
  login db email2 password2 = login db email1 password1.
Proof.
  intros He1 Hp1 He2 Hp2 Hnone Hsome Hcmp.
  unfold login, jnot. rewrite He1, Hp1, He2, Hp2, Hnone, Hsome, Hcmp.
  split; reflexivity.
Qed.

End Accounts.

(** ** The upload grant *)

(** [runs] cuts the string: the runs put together give it back, no run is
    empty, a run is all whitespace or free of it as its tag says, and the
    runs are maximal. *)
Lemma runs_concat (s : JsString) : concat (map snd (runs s)) = s.
Proof.
  induction s as [|c s IH]; [reflexivity|]. simpl.
  destruct (runs s) as [|[b r] more]; simpl in *; [now subst|].
  destruct (Bool.eqb (is_space c) b); simpl; now rewrite <- IH.
Qed.

Lemma runs_homogeneous (s : JsString) :
  Forall (fun run => snd run <> [] /\ Forall (fun c => is_space c = fst run) (snd run))
         (runs s).
Proof.
  induction s as [|c s IH]; [constructor|]. simpl.
  destruct (runs s) as [|[b r] more]; simpl in *.
  - repeat constructor. discriminate.
  - apply Forall_cons_iff in IH as [[Hne Hr] Hmore]. simpl in *.
    destruct (Bool.eqb (is_space c) b) eqn:E.
    + apply Bool.eqb_prop in E. constructor; [|exact Hmore]. simpl.
      split; [discriminate|]. now constructor.
    + constructor; [simpl; split; [discriminate|now repeat constructor]|].
      constructor; [now split|exact Hmore].
Qed.

Lemma runs_alternating (s : JsString) : alternating (runs s).
Proof.
  induction s as [|c s IH]; [exact I|]. simpl.
  destruct (runs s) as [|[b r] more]; [exact I|].
  destruct (Bool.eqb (is_space c) b) eqn:E.
  - destruct more; [exact I|]. exact IH.
  - split; [|exact IH]. simpl. intros Heq. rewrite Heq in E.
    now rewrite Bool.eqb_reflx in E.
Qed.

(** The scan of the source and the cut into runs give the same string. *)
Lemma replace_space_runs_by_runs (in_run : bool) (s : JsString) :
  replace_space_runs in_run s =
  match runs s with
  | (true, r) :: more =>
      if in_run then concat (map underscore_for_run more)
      else underscore :: concat (map underscore_for_run more)
  | l => concat (map underscore_for_run l)
  end.
Proof.
  revert in_run. induction s as [|c s IH]; intros in_run; [reflexivity|].
  simpl. destruct (is_space c) eqn:Hc.
  - pose proof (IH true) as IHt.
    destruct (runs s) as [|[[] r] more]; simpl in *.
    + rewrite IHt. reflexivity.
    + rewrite IHt. reflexivity.
    + rewrite IHt. unfold underscore_for_run at 1 3. simpl. reflexivity.
  - rewrite (IH false).
    destruct (runs s) as [|[[] r] more]; simpl; reflexivity.
Qed.

Lemma sanitize_is_by_runs (s : JsString) : sanitize s = sanitize_by_runs s.
Proof.
  unfold sanitize, sanitize_by_runs, strip_other_chars.
  rewrite replace_space_runs_by_runs.
  destruct (runs s) as [|[[] r] more]; reflexivity.
Qed.

Lemma strip_keeps_key_chars (s : JsString) :
  Forall (fun c => is_key_char c = true) (strip_other_chars s).
Proof.
  apply List.Forall_forall. intros c Hc. unfold strip_other_chars in Hc.
  now apply filter_In in Hc.
Qed.

Section Upload.
Context `{Collaborators}.

(** C8, as the route does it: for a file name that is a non-empty string
    and a file type that is present, the route asks the signer for a
    putObject URL with the key posts/<now>-<sanitized name>, Expires 300
    seconds (five minutes) and the file type as ContentType, and answers
    with what the signer gives.  The sanitized name is the name with each
    run of whitespace turned into one underscore and then every character
    outside [A-Za-z0-9._-] removed.  A file name that is present and is
    not a string has no replace method: the route throws, derives no key
    and sends no grant. *)
Theorem upload_grant (now : Z) (db : Db) (name : JsString) (fileType : JsValue) :
  name <> [] -> truthy fileType = true ->
  let key := js "posts/" ++ decimal now ++ js "-" ++ sanitize_by_runs name in
  let params := mkS3Params S3_BUCKET_NAME key (5 * 60) fileType in
  Forall (fun c => is_key_char c = true) (sanitize_by_runs name) /\
  presign now db (JStr name) fileType =
    match getSignedUrl (js "putObject") params with
    | inr uploadUrl => (Sent 200 (GrantBody uploadUrl (fileUrl_of key)), db)
    | inl err =>
        (Sent 500 (Message
           (js "S3 URL generation failed. Details: " ++
            ToString (jor (s3_message err) (JStr (js "Unknown S3 error"))))), db)
    end /\
  forall other : JsValue,
    truthy other = true -> (forall s, other <> JStr s) ->
    presign now db other fileType = (Uncaught, db).
Proof.
  intros Hname Htype key params.
  assert (Hkey : s3Key now name = key)
    by (unfold s3Key; now rewrite sanitize_is_by_runs).
  split; [|split].
  - rewrite <- sanitize_is_by_runs. apply strip_keeps_key_chars.
  - unfold presign, jnot. rewrite Htype.
    destruct name as [|c name]; [now destruct Hname|]. cbn [truthy negb orb].
    unfold s3_params, URL_EXPIRATION_SECONDS. rewrite Hkey.
    change (mkS3Params S3_BUCKET_NAME key 300 fileType) with params.
    cbn [Key]. subst params. cbn [Key].
    set (params := mkS3Params S3_BUCKET_NAME key (5 * 60) fileType).
    destruct (getSignedUrl (js "putObject") params); reflexivity.
  - intros other Hother Hns. unfold presign, jnot. rewrite Hother, Htype.
    cbn [negb orb]. destruct other; try reflexivity. now destruct (Hns s).
Qed.

End Upload.

(** ** Presence checks *)

Lemma blank_is_truthy (w : JsString) : blank w -> truthy (JStr w) = true.
Proof. intros [Hne _]. now apply truthy_JStr. Qed.

Ltac refusal :=
  split;
  [ intros _; reflexivity
  | let Hno := fresh "Hno" in intros Hno; exfalso; apply Hno; auto ].

Ltac no_refusal tac :=
  split;
  [ let Hm := fresh "Hm" in
    intros Hm; exfalso; repeat destruct Hm as [Hm|Hm]; discriminate
  | intros _; tac ].

Section Presence.
Context `{Collaborators}.

Lemma signup_presence (salt : N) (db : Db) (fullName email password : JsValue) :
  refuses_exactly_when
    (truthy fullName = false \/ truthy email = false \/ truthy password = false)
    (js "All fields required.") db
    (signup salt db fullName email password).
Proof.
  unfold refuses_exactly_when, signup, jnot.
  destruct (truthy fullName) eqn:Hf, (truthy email) eqn:He,
           (truthy password) eqn:Hp; cbn [negb orb]; try refusal.
  no_refusal ltac:(idtac).
  destruct (bcrypt_hash _ _ _); [|discriminate].
  unfold insert_user. destruct (existsb _ (users db)); [|discriminate].
  destruct (includes _ _); discriminate.
Qed.

Lemma login_presence (db : Db) (email password : JsValue) :
  refuses_exactly_when
    (truthy email = false \/ truthy password = false)
    (js "Email and password required.") db
    (login db email password).
Proof.
  unfold refuses_exactly_when, login, jnot.
  destruct (truthy email) eqn:He, (truthy password) eqn:Hp;
    cbn [negb orb]; try refusal.
  no_refusal ltac:(idtac).
  destruct (select_user_by_email _ _); [|discriminate].
  destruct (bcrypt_compare _ _) as [[]|]; discriminate.
Qed.

Lemma submit_presence (now : Z) (db : Db)
    (title content author username imageUrl category : JsValue) :
  refuses_exactly_when
    (truthy title = false \/ truthy content = false \/ truthy author = false \/
     truthy username = false \/ truthy category = false)
    (js "Missing fields.") db
    (submit now db title content author username imageUrl category).
Proof.
  unfold refuses_exactly_when, submit, jnot.
  destruct (truthy title) eqn:Ht, (truthy content) eqn:Hc,
           (truthy author) eqn:Ha, (truthy username) eqn:Hu,
           (truthy category) eqn:Hk; cbn [negb orb]; try refusal.
  no_refusal ltac:(discriminate).
Qed.

Lemma presign_presence (now : Z) (db : Db) (fileName fileType : JsValue) :
  refuses_exactly_when
    (truthy fileName = false \/ truthy fileType = false)
    (js "Missing file info.") db
    (presign now db fileName fileType).
Proof.
  unfold refuses_exactly_when, presign, jnot.
  destruct (truthy fileName) eqn:Hname, (truthy fileType) eqn:Htype;
    cbn [negb orb]; try refusal.
  no_refusal ltac:(idtac).
  destruct fileName; try discriminate.
  destruct (getSignedUrl _ _); discriminate.
Qed.

(** C10: the presence check of each of the four routes looks at the
    truthiness of the field and at nothing else.  A string of whitespace
    is truthy, the empty string is falsy like an absent field; a route
    answers its fixed 400 and leaves the store alone when one of its
    required fields is falsy, and does not answer 400 when none is. *)
Theorem presence_checks :
  (forall w, blank w -> truthy (JStr w) = true) /\
  truthy (JStr []) = false /\ truthy JUndefined = false /\
  (forall salt db fullName email password,
     refuses_exactly_when
       (truthy fullName = false \/ truthy email = false \/
        truthy password = false)
       (js "All fields required.") db
       (signup salt db fullName email password)) /\
  (forall db email password,
     refuses_exactly_when
       (truthy email = false \/ truthy password = false)
       (js "Email and password required.") db
       (login db email password)) /\
  (forall now db title content author username imageUrl category,
     refuses_exactly_when
       (truthy title = false \/ truthy content = false \/
        truthy author = false \/ truthy username = false \/
        truthy category = false)
       (js "Missing fields.") db
       (submit now db title content author username imageUrl category)) /\
  (forall now db fileName fileType,
     refuses_exactly_when
       (truthy fileName = false \/ truthy fileType = false)
       (js "Missing file info.") db
       (presign now db fileName fileType)).
Proof.
  split; [exact blank_is_truthy|]. split; [reflexivity|]. split; [reflexivity|].
  split; [exact signup_presence|]. split; [exact login_presence|].
  split; [exact submit_presence|exact presign_presence].
Qed.

End Presence.

(** ** The routes at work on sample requests *)

Example one_post_db_rows : posts one_post_db = [sample_post "pending"].
Proof. reflexivity. Qed.

Example ann_db_rows : users ann_db = [ann].
Proof. reflexivity. Qed.

Example sanitize_sample :
  sanitize (js "my  photo (1).png") = js "my_photo_1.png".
Proof. reflexivity. Qed.

Example runs_sample :
  runs (js "a  b") = [(false, js "a"); (true, js "  "); (false, js "b")].
Proof. reflexivity. Qed.

(** C1 refuted as stated: after a post has been approved, a reject moves
    its status from "approved" to "rejected", a move that does not start
    at "pending" and is not the same transition applied again. *)
Lemma status_can_leave_approved :
  ~ (forall (rs : list Request) (r : Request) (p p' : Post.t),
       In p (posts (@run demo empty_db rs)) ->
       In p' (posts (snd (@handle demo (@run demo empty_db rs) r))) ->
       Post.id p' = Post.id p ->
       from_pending_only p p').
Proof.
  intros Hclaim.
  destruct (Hclaim [sample_submit; Approve 1] (Reject 1)
                   (sample_post "approved") (sample_post "rejected"))
    as [Hsame|[Hpending _]].
  - left. reflexivity.
  - left. reflexivity.
  - reflexivity.
  - discriminate Hsame.
  - discriminate Hpending.
Qed.

Lemma status_overwrite_invariant_witness :
  well_formed empty_db /\
  Forall valid_status
         (posts (@run demo empty_db [sample_submit; Approve 1; Reject 1])).
Proof.
  assert (Hwf : well_formed empty_db) by (split; constructor).
  split; [exact Hwf|].
  exact (proj1 (@status_overwrite_invariant demo empty_db
                  [sample_submit; Approve 1; Reject 1] Hwf)).
Defined.

(** C2 refuted as stated: with title, content, author and username all
    present and no category, the submission is answered 400 and no post
    is stored, with category "uncategorized" or any other. *)
Lemma submit_without_category_refused :
  @submit demo 1700000000 empty_db (JStr (js "T")) (JStr (js "C"))
          (JStr (js "Alice")) (JStr (js "alice")) JUndefined JUndefined =
    (Sent 400 (Message (js "Missing fields.")), empty_db).
Proof. reflexivity. Qed.

Lemma approve_then_reject_witness :
  (exists p, In p (posts one_post_db) /\ Post.id p = 1) /\
  fst (reject (snd (approve one_post_db 1)) 1) =
    Sent 200 (Message (js "Post rejected.")).
Proof.
  assert (Hex : exists p, In p (posts one_post_db) /\ Post.id p = 1).
  { exists (sample_post "pending"). split; [left|]; reflexivity. }
  split; [exact Hex|].
  exact (proj1 (proj2 (approve_then_reject one_post_db 1 Hex))).
Defined.

Lemma login_failures_alike_witness :
  @login demo ann_db (JStr (js "ann@example.org")) (JStr (js "guess")) =
  @login demo ann_db (JStr (js "bob@example.org")) (JStr (js "s3cret")).
Proof.
  apply (@login_failures_alike demo ann_db ann
           (JStr (js "bob@example.org")) (JStr (js "s3cret"))
           (JStr (js "ann@example.org")) (JStr (js "guess")));
    reflexivity.
Defined.

Lemma signup_duplicate_email_witness :
  In ann (users ann_db) /\
  @signup demo 8 ann_db (JStr (js "Bob")) (JStr (js "ann@example.org"))
          (JStr (js "hunter2")) =
    (Sent 409 (Message (js "Email already exists.")), ann_db).
Proof.
  assert (Hin : In ann (users ann_db)) by (left; reflexivity).
  split; [exact Hin|].
  apply (@signup_duplicate_email demo 8 ann_db ann (JStr (js "Bob"))
           (JStr (js "ann@example.org")) (JStr (js "hunter2"))
           (js "$2b$10$8$2retnuh") Hin); reflexivity.
Defined.

Lemma submit_is_pending_witness :
  code_of (fst (@handle demo empty_db sample_submit)) = Some 201 /\
  exists p, get one_post_db 1 = (Sent 200 (RowBody p), one_post_db) /\
            Post.status p = Some (js "pending").
Proof.
  split; [reflexivity|].
  destruct (@submit_is_pending demo 1700000000 empty_db (JStr (js "T"))
              (JStr (js "C")) (JStr (js "Alice")) (JStr (js "alice"))
              JUndefined (JStr (js "tech")) eq_refl)
    as (_ & _ & p & Hget & _ & _ & Hstatus).
  exists p. split; [exact Hget|exact Hstatus].
Defined.

Lemma upload_grant_witness :
  js "my  photo (1).png" <> [] /\
  @presign demo 1700000000000 empty_db (JStr (js "my  photo (1).png"))
           (JStr (js "image/png")) =
    (Sent 200
       (GrantBody
          (js "https://s3.example/posts/1700000000000-my_photo_1.png" ++
           js "?X-Amz-Expires=300&Content-Type=image/png")
          (js "https://blog-images.s3.us-east-1.amazonaws.com/" ++
           js "posts/1700000000000-my_photo_1.png")),
     empty_db).
Proof.
  assert (Hname : js "my  photo (1).png" <> []) by discriminate.
  split; [exact Hname|].
  exact (proj1 (proj2 (@upload_grant demo 1700000000000 empty_db
                         (js "my  photo (1).png") (JStr (js "image/png"))
                         Hname eq_refl))).
Defined.

(** C8 refuted as stated: the file name 123 and the file type
    "image/png" are both present, yet the route throws at
    [fileName.replace]: it sends no reply, so no key is derived and no
    upload URL is issued. *)
Lemma presign_number_name_throws :
  truthy (JNum 123) = true /\ truthy (JStr (js "image/png")) = true /\
  @presign demo 1700000000000 empty_db (JNum 123) (JStr (js "image/png")) =
    (Uncaught, empty_db) /\
  forall uploadUrl fileUrl,
    fst (@presign demo 1700000000000 empty_db (JNum 123)
                  (JStr (js "image/png")))
    <> Sent 200 (GrantBody uploadUrl fileUrl).
Proof. repeat split. intros uploadUrl fileUrl. discriminate. Qed.

(** * Further properties of the routes *)

(** ** Keys that are absent, deletion, reading back *)

Lemma with_posts_same (db : Db) : with_posts db (posts db) = db.
Proof. now destruct db. Qed.

Lemma no_hit_filter (id : Z) (rows : list Post.t) :
  (forall p, In p rows -> Post.id p <> id) <->
  List.filter (has_id id) rows = [].
Proof.
  split.
  - intros Hno. induction rows as [|p rows IH]; [reflexivity|]. simpl.
    assert (E : has_id id p = false) by (apply has_id_false, Hno; now left).
    rewrite E. apply IH. intros q Hq. apply Hno. now right.
  - intros Hnil p Hp Hid.
    assert (Hin : In p (List.filter (has_id id) rows))
      by (apply filter_In; split; [exact Hp|now apply has_id_true]).
    now rewrite Hnil in Hin.
Qed.

Lemma update_status_no_hit (lit : JsString) (id : Z) (rows : list Post.t) :
  (forall p, In p rows -> Post.id p <> id) ->
  update_status lit id rows = (rows, 0%nat).
Proof.
  intros Hno. unfold update_status. f_equal.
  - rewrite <- (map_id rows) at 2. apply map_ext_in. intros p Hp.
    assert (E : has_id id p = false) by (apply has_id_false, Hno, Hp).
    now rewrite E.
  - now rewrite (proj1 (no_hit_filter id rows) Hno).
Qed.

Lemma delete_rows_no_hit (id : Z) (rows : list Post.t) :
  (forall p, In p rows -> Post.id p <> id) ->
  delete_rows id rows = (rows, 0%nat).
Proof.
  intros Hno. unfold delete_rows. f_equal.
  - induction rows as [|p rows IH]; [reflexivity|]. simpl.
    assert (E : has_id id p = false) by (apply has_id_false, Hno; now left).
    rewrite E. simpl. f_equal. apply IH. intros q Hq. apply Hno. now right.
  - now rewrite (proj1 (no_hit_filter id rows) Hno).
Qed.

Lemma find_no_hit (id : Z) (rows : list Post.t) :
  (forall p, In p rows -> Post.id p <> id) <->
  List.find (has_id id) rows = None.
Proof.
  split.
  - intros Hno. induction rows as [|p rows IH]; [reflexivity|]. simpl.
    assert (E : has_id id p = false) by (apply has_id_false, Hno; now left).
    rewrite E. apply IH. intros q Hq. apply Hno. now right.
  - intros Hnone p Hp. apply has_id_false. exact (find_none _ _ Hnone p Hp).
Qed.

Lemma hit_count_positive (id : Z) (rows : list Post.t) :
  (exists p, In p rows /\ Post.id p = id) ->
  exists n, length (List.filter (has_id id) rows) = S n.
Proof.
  intros (p & Hp & Hid).
  destruct (List.filter (has_id id) rows) as [|q l] eqn:E; [|now exists (length l)].
  now destruct (proj2 (no_hit_filter id rows) E p Hp).
Qed.

Lemma approve_absent (db : Db) (id : Z) :
  (forall p, In p (posts db) -> Post.id p <> id) ->
  approve db id = not_found_reply db.
Proof.
  intros Hno. unfold approve. rewrite update_status_no_hit by exact Hno.
  simpl. now rewrite with_posts_same.
Qed.

Lemma reject_absent (db : Db) (id : Z) :
  (forall p, In p (posts db) -> Post.id p <> id) ->
  reject db id = not_found_reply db.
Proof.
  intros Hno. unfold reject. rewrite update_status_no_hit by exact Hno.
  simpl. now rewrite with_posts_same.
Qed.

Lemma delete_absent (db : Db) (id : Z) :
  (forall p, In p (posts db) -> Post.id p <> id) ->
  delete_post db id = not_found_reply db.
Proof.
  intros Hno. unfold delete_post. rewrite delete_rows_no_hit by exact Hno.
  simpl. now rewrite with_posts_same.
Qed.

Lemma get_absent (db : Db) (id : Z) :
  (forall p, In p (posts db) -> Post.id p <> id) ->
  get db id = not_found_reply db.
Proof.
  intros Hno. unfold get. now rewrite (proj1 (find_no_hit id (posts db)) Hno).
Qed.

(** X1: for an id that no stored post has, approve, reject and delete
    answer 404 "Post not found." and so does the read of that id, and
    each of the four leaves the store exactly as it was. *)
Theorem absent_id_not_found (db : Db) (id : Z) :
  (forall p, In p (posts db) -> Post.id p <> id) ->
  let not_found := (Sent 404 (Message (js "Post not found.")), db) in
  approve db id = not_found /\ reject db id = not_found /\
  delete_post db id = not_found /\ get db id = not_found.
Proof.
  intros Hno not_found. subst not_found. repeat split.
  - now apply approve_absent.
  - now apply reject_absent.
  - now apply delete_absent.
  - now apply get_absent.
Qed.

(** X2: deleting an id that a stored post has answers 200 and removes
    the rows with that id and no other: afterwards the id reads as 404, a
    second delete answers 404, every post with another id is still
    stored, and the users and the key counter are untouched. *)
Theorem delete_then_get (db : Db) (id : Z) :
  (exists p, In p (posts db) /\ Post.id p = id) ->
  let db' := snd (delete_post db id) in
  fst (delete_post db id) = Sent 200 (Message (js "Post deleted.")) /\
  get db' id = (Sent 404 (Message (js "Post not found.")), db') /\
  delete_post db' id = (Sent 404 (Message (js "Post not found.")), db') /\
  (forall p, In p (posts db') <-> In p (posts db) /\ Post.id p <> id) /\
  users db' = users db /\ users_seq db' = users_seq db /\
  posts_seq db' = posts_seq db.
Proof.
  intros Hex db'.
  assert (Hdb' : db' = with_posts db
            (List.filter (fun p => negb (has_id id p)) (posts db)))
    by apply delete_unfold.
  assert (Hmem : forall p, In p (posts db') <-> In p (posts db) /\ Post.id p <> id).
  { intros p. rewrite Hdb'. cbn [posts with_posts].
    rewrite filter_In, Bool.negb_true_iff. now rewrite has_id_false. }
  assert (Hgone : forall p, In p (posts db') -> Post.id p <> id)
    by (intros p Hp; now apply Hmem in Hp).
  split.
  - apply hit_count_positive in Hex as [n Hn].
    unfold delete_post, delete_rows. now rewrite Hn.
  - split; [now apply get_absent|]. split; [now apply delete_absent|].
    split; [exact Hmem|]. rewrite Hdb'. now cbn.
Qed.

Lemma find_the_row (rows : list Post.t) (p : Post.t) :
  List.NoDup (map Post.id rows) -> In p rows ->
  List.find (has_id (Post.id p)) rows = Some p.
Proof.
  intros Hnd Hp.
  destruct (List.find (has_id (Post.id p)) rows) as [q|] eqn:E.
  - apply find_some in E as [Hq Hid]. apply has_id_true in Hid.
    f_equal. now apply (key_determines_row rows).
  - now destruct (proj2 (find_no_hit _ _) E p Hp).
Qed.

(** X3: when the keys of the stored posts are distinct, reading the id
    of a post answers 200 with that very row, and a row comes back under
    an id only if it is stored under it; the read changes nothing. *)
Theorem get_returns_the_row (db : Db) (id : Z) (p : Post.t) :
  List.NoDup (map Post.id (posts db)) ->
  (In p (posts db) /\ Post.id p = id <->
   get db id = (Sent 200 (RowBody p), db)).
Proof.
  intros Hnd. unfold get. split.
  - intros [Hp <-]. now rewrite find_the_row.
  - destruct (List.find (has_id id) (posts db)) as [q|] eqn:E; [|discriminate].
    intros [= ->]. apply find_some in E as [Hq Hid].
    split; [exact Hq|now apply has_id_true].
Qed.

(** ** Moderation calls one after the other *)

Lemma has_id_set_status (lit : JsString) (id : Z) (p : Post.t) :
  has_id id (Post.set_status lit p) = has_id id p.
Proof. reflexivity. Qed.

Lemma update_status_twice (lit1 lit2 : JsString) (id : Z) (rows : list Post.t) :
  update_status lit2 id (fst (update_status lit1 id rows)) =
  update_status lit2 id rows.
Proof.
  unfold update_status. cbn [fst]. f_equal.
  - rewrite map_map. apply map_ext. intros p.
    destruct (has_id id p) eqn:E.
    + now rewrite has_id_set_status, E.
    + now rewrite E.
  - induction rows as [|p rows IH]; [reflexivity|]. simpl.
    destruct (has_id id p) eqn:E.
    + rewrite has_id_set_status, E. simpl. now rewrite IH.
    + now rewrite E.
Qed.

Lemma moderate_after (lit1 lit2 : JsString) (id : Z) (db : Db) :
  update_status lit2 id
    (posts (with_posts db (fst (update_status lit1 id (posts db))))) =
  update_status lit2 id (posts db).
Proof. cbn [posts with_posts]. apply update_status_twice. Qed.

Lemma with_posts_twice (db : Db) (rows rows' : list Post.t) :
  with_posts (with_posts db rows) rows' = with_posts db rows'.
Proof. reflexivity. Qed.

Lemma approve_after (lit : JsString) (id : Z) (db : Db) :
  let db1 := with_posts db (fst (update_status lit id (posts db))) in
  fst (approve db1 id) = fst (approve db id) /\
  snd (approve db1 id) = snd (approve db id).
Proof.
  intros db1. subst db1. unfold approve. rewrite moderate_after.
  destruct (update_status (js "approved") id (posts db)) as [rows n].
  destruct (Nat.eqb n 0); split; reflexivity.
Qed.

Lemma reject_after (lit : JsString) (id : Z) (db : Db) :
  let db1 := with_posts db (fst (update_status lit id (posts db))) in
  fst (reject db1 id) = fst (reject db id) /\
  snd (reject db1 id) = snd (reject db id).
Proof.
  intros db1. subst db1. unfold reject. rewrite moderate_after.
  destruct (update_status (js "rejected") id (posts db)) as [rows n].
  destruct (Nat.eqb n 0); split; reflexivity.
Qed.

(** X4: of two moderation calls on the same id only the second shows:
    approve or reject after an approve or a reject answers what it would
    have answered alone and leaves the store it would have left alone.
    Approving twice is approving once, and a reject undoes an approve as
    an approve undoes a reject. *)
Theorem last_moderation_wins (db : Db) (id : Z) :
  approve (snd (approve db id)) id = approve db id /\
  approve (snd (reject db id)) id = approve db id /\
  reject (snd (reject db id)) id = reject db id /\
  reject (snd (approve db id)) id = reject db id.
Proof.
  rewrite approve_unfold, reject_unfold.
  pose proof (approve_after (js "approved") id db) as [Ha1 Ha2].
  pose proof (approve_after (js "rejected") id db) as [Hb1 Hb2].
  pose proof (reject_after (js "rejected") id db) as [Hc1 Hc2].
  pose proof (reject_after (js "approved") id db) as [Hd1 Hd2].
  cbv zeta in *.
  repeat split; apply injective_projections; assumption.
Qed.

Lemma update_status_commute (lit1 lit2 : JsString) (id1 id2 : Z)
    (rows : list Post.t) :
  id1 <> id2 ->
  fst (update_status lit2 id2 (fst (update_status lit1 id1 rows))) =
  fst (update_status lit1 id1 (fst (update_status lit2 id2 rows))).
Proof.
  intros Hne. unfold update_status. cbn [fst]. rewrite !map_map.
  apply map_ext. intros p.
  destruct (has_id id1 p) eqn:E1, (has_id id2 p) eqn:E2;
    rewrite ?has_id_set_status, ?E1, ?E2; try reflexivity.
  apply has_id_true in E1, E2. congruence.
Qed.

(** X5: moderation calls on different ids do not interfere: approving
    one post and rejecting another leaves the same store in either order. *)
Theorem moderation_commutes (db : Db) (id1 id2 : Z) :
  id1 <> id2 ->
  snd (reject (snd (approve db id1)) id2) =
  snd (approve (snd (reject db id2)) id1).
Proof.
  intros Hne. rewrite !approve_unfold, !reject_unfold. cbn [posts with_posts].
  unfold with_posts. cbn [users users_seq posts_seq]. f_equal.
  now apply update_status_commute.
Qed.

(** ** Which requests write *)

Lemma hit_or_absent (id : Z) (rows : list Post.t) :
  (exists p, In p rows /\ Post.id p = id) \/
  (forall p, In p rows -> Post.id p <> id).
Proof.
  destruct (List.filter (has_id id) rows) as [|p l] eqn:E.
  - right. now apply no_hit_filter.
  - left. exists p.
    assert (Hp : In p (List.filter (has_id id) rows)) by (rewrite E; now left).
    apply filter_In in Hp as [Hp Hid]. split; [exact Hp|now apply has_id_true].
Qed.

Lemma delete_reply (db : Db) (id : Z) :
  (exists p, In p (posts db) /\ Post.id p = id) ->
  fst (delete_post db id) = Sent 200 (Message (js "Post deleted.")).
Proof.
  intros [n Hn]%hit_count_positive. unfold delete_post, delete_rows.
  now rewrite Hn.
Qed.

Section Writes.
Context `{Collaborators}.

(** X6: a request that fails changes nothing.  The store after a request
    differs from the store before only for a registration or a submission
    answered 201 and for an approve, a reject or a delete answered 200;
    logins, listings, reads and upload grants never write. *)
Theorem store_changes_only_on_success (db : Db) (r : Request) :
  writes r (fst (handle db r)) \/ snd (handle db r) = db.
Proof.
  destruct r; cbn [handle writes].
  - destruct (decide (code_of (fst (signup salt db fullName email password))
                      = Some 201)) as [Hc|Hc]; [now left|right].
    now apply signup_failure_keeps_db.
  - right. apply login_keeps_db.
  - destruct (jnot title || jnot content || jnot author || jnot username
              || jnot category) eqn:Hg.
    + right. now rewrite submit_rejected.
    + left. now rewrite submit_accepted.
  - now right.
  - now right.
  - now right.
  - destruct (hit_or_absent id (posts db)) as [Hex|Hno].
    + left. now rewrite approve_reply.
    + right. now rewrite approve_absent.
  - destruct (hit_or_absent id (posts db)) as [Hex|Hno].
    + left. now rewrite reject_reply.
    + right. now rewrite reject_absent.
  - destruct (hit_or_absent id (posts db)) as [Hex|Hno].
    + left. now rewrite delete_reply.
    + right. now rewrite delete_absent.
  - right. apply get_keeps_db.
  - right. apply presign_keeps_db.
Qed.

End Writes.

(** ** Accounts along a run *)

Lemma existsb_email_fresh (email : JsString) (rows : list User.t) :
  (forall u, In u rows -> User.email u <> email) <->
  existsb (fun u => bool_decide (User.email u = email)) rows = false.
Proof.
  split.
  - intros Hfresh. induction rows as [|u rows IH]; [reflexivity|]. simpl.
    rewrite bool_decide_eq_false_2 by (apply Hfresh; now left).
    apply IH. intros v Hv. apply Hfresh. now right.
  - intros Hex u Hu Heq.
    assert (Ht : existsb (fun u => bool_decide (User.email u = email)) rows = true)
      by now apply (existsb_email email rows u).
    congruence.
Qed.

Lemma select_fresh_last (email : JsString) (rows : list User.t) (u : User.t) :
  (forall v, In v rows -> User.email v <> email) -> User.email u = email ->
  List.find (fun u => bool_decide (User.email u = email)) (rows ++ [u]) = Some u.
Proof.
  intros Hfresh Hu. induction rows as [|v rows IH]; simpl.
  - now rewrite bool_decide_eq_true_2.
  - rewrite bool_decide_eq_false_2 by (apply Hfresh; now left).
    apply IH. intros w Hw. apply Hfresh. now right.
Qed.

Section AccountRuns.
Context `{Collaborators}.

(** The users after a request: the same, or one more whose email no
    stored user had. *)
Lemma users_after (db : Db) (r : Request) :
  users (snd (handle db r)) = users db \/
  exists u, users (snd (handle db r)) = users db ++ [u] /\
            (forall v, In v (users db) -> User.email v <> User.email u).
Proof.
  destruct r; cbn [handle];
    try (left; reflexivity).
  - unfold signup. destruct (_ || _); [now left|].
    destruct (bcrypt_hash _ _ _); [|now left].
    unfold insert_user.
    destruct (existsb _ (users db)) eqn:E.
    + left. now destruct (includes _ _).
    + right. eexists. split; [reflexivity|]. cbn [User.email].
      now apply existsb_email_fresh.
  - left. now rewrite login_keeps_db.
  - left. unfold submit. now destruct (_ || _).
  - left. now rewrite approve_unfold.
  - left. now rewrite reject_unfold.
  - left. now rewrite delete_unfold.
  - left. now rewrite get_keeps_db.
  - left. now rewrite presign_keeps_db.
Qed.

(** X7: a registration with its three fields present, a password bcrypt
    hashes and an email no stored user has is answered 201 and stores one
    user, under a new key, with the hash and not the password; a login
    with the same email and a password bcrypt accepts against that hash is
    then answered 200 with the id, the name and the email of that user. *)
Theorem signup_then_login (salt : N) (db : Db)
    (fullName email password : JsValue) (hashedPassword : JsString) :
  truthy fullName = true -> truthy email = true -> truthy password = true ->
  bcrypt_hash salt password 10 = Some hashedPassword ->
  (forall u, In u (users db) -> User.email u <> sqlText email) ->
  bcrypt_compare password (sqlText (JStr hashedPassword)) = Some true ->
  let db' := snd (signup salt db fullName email password) in
  let id := next_rowid (users_seq db) (map User.id (users db)) in
  fst (signup salt db fullName email password) =
    Sent 201 (Message (js "User registered successfully!")) /\
  users db' = users db ++ [User.mk id (sqlText fullName) (sqlText email)
                                   (sqlText (JStr hashedPassword))] /\
  (forall u, In u (users db) -> User.id u <> id) /\
  posts db' = posts db /\
  login db' email password =
    (Sent 200 (LoginBody (js "Login successful!") id (sqlText fullName)
                         (sqlText email)), db').
Proof.
  intros Hf He Hp Hhash Hfresh Hcmp db' id.
  assert (Hs : signup salt db fullName email password =
    (Sent 201 (Message (js "User registered successfully!")),
     mkDb (users db ++ [User.mk id (sqlText fullName) (sqlText email)
                                (sqlText (JStr hashedPassword))]) id
          (posts db) (posts_seq db))).
  { unfold signup, jnot. rewrite Hf, He, Hp, Hhash. cbn [negb orb].
    unfold insert_user.
    now rewrite (proj1 (existsb_email_fresh _ _) Hfresh). }
  subst db'. rewrite Hs. cbn [fst snd users posts].
  split; [reflexivity|]. split; [reflexivity|]. split.
  { intros u Hu. pose proof (next_rowid_fresh (users_seq db) _ _
                               (in_map User.id _ _ Hu)). subst id. lia. }
  split; [reflexivity|].
  unfold login, jnot. rewrite He, Hp. cbn [negb orb].
  unfold select_user_by_email. cbn [users].
  rewrite (select_fresh_last (sqlText email) (users db)
             (User.mk id (sqlText fullName) (sqlText email)
                      (sqlText (JStr hashedPassword))) Hfresh eq_refl).
  cbn [User.password User.id User.fullName User.email].
  now rewrite Hcmp.
Qed.

(** X8: a login is answered 200 only for a stored user: one whose email
    is the email sent and whose stored hash bcrypt accepts for the
    password sent.  The reply carries the id, the name and the email of
    that user, and the store is as before. *)
Theorem login_success_sound (db db' : Db) (email password : JsValue) (body : Body) :
  login db email password = (Sent 200 body, db') ->
  db' = db /\ truthy email = true /\ truthy password = true /\
  exists user,
    In user (users db) /\ User.email user = sqlText email /\
    bcrypt_compare password (User.password user) = Some true /\
    body = LoginBody (js "Login successful!") (User.id user)
                     (User.fullName user) (User.email user).
Proof.
  unfold login, jnot.
  destruct (truthy email), (truthy password); cbn [negb orb];
    try discriminate.
  unfold select_user_by_email.
  destruct (List.find _ (users db)) as [user|] eqn:E; [|discriminate].
  destruct (bcrypt_compare password (User.password user)) as [[]|] eqn:Hc;
    try discriminate.
  intros [= <- <-]. apply find_some in E as [Hin Hemail].
  apply bool_decide_eq_true in Hemail.
  repeat split. exists user. repeat split; assumption.
Qed.

Lemma handle_emails_unique (db : Db) (r : Request) :
  emails_unique db -> emails_unique (snd (handle db r)).
Proof.
  unfold emails_unique. intros Hnd.
  destruct (users_after db r) as [->|(u & -> & Hfresh)]; [exact Hnd|].
  rewrite map_app. apply List.NoDup_app; [exact Hnd| |].
  - repeat constructor. intros [].
  - intros e He [<-|[]]. apply in_map_iff in He as (v & Hv & Hin).
    now apply (Hfresh v Hin).
Qed.

(** X9: no two users ever share an email: if the stored emails are
    distinct, they are distinct after any sequence of requests. *)
Theorem emails_stay_unique (db : Db) (rs : list Request) :
  emails_unique db -> emails_unique (run db rs).
Proof.
  revert db. induction rs as [|r rs IH]; intros db Hu; [exact Hu|].
  apply IH, handle_emails_unique, Hu.
Qed.

(** X10: no request removes or changes a user: the users stored before
    a sequence of requests are, in the same order and unchanged, the
    first users stored after it. *)
Theorem users_only_grow (db : Db) (rs : list Request) :
  exists added, users (run db rs) = users db ++ added.
Proof.
  revert db. induction rs as [|r rs IH]; intros db.
  - exists []. now rewrite app_nil_r.
  - destruct (IH (snd (handle db r))) as [added Hrun].
    cbn [run fold_left]. fold (run (snd (handle db r)) rs). rewrite Hrun.
    destruct (users_after db r) as [->|(u & -> & _)].
    + now exists added.
    + exists (u :: added). now rewrite <- app_assoc.
Qed.

End AccountRuns.

(** ** The keys of the posts along a run *)

Lemma same_but_status_trans (p q r : Post.t) :
  same_but_status p q -> same_but_status q r -> same_but_status p r.
Proof. unfold same_but_status. intuition congruence. Qed.

Section PostKeys.
Context `{Collaborators}.

(** A row after a request comes from a row before it, or is the row a
    submission has just stored under a key above the counter. *)
Lemma row_after (db : Db) (r : Request) (p' : Post.t) :
  In p' (posts (snd (handle db r))) ->
  (exists p, In p (posts db) /\ same_but_status p p') \/
  posts_seq db < Post.id p'.
Proof.
  intros Hp'. pose proof (posts_after db r) as Hposts.
  assert (Hold : In p' (posts db) ->
                 (exists p, In p (posts db) /\ same_but_status p p') \/
                 posts_seq db < Post.id p').
  { intros Hin. left. exists p'. split; [exact Hin|apply same_but_status_refl]. }
  assert (Hupd : forall lit id,
            In p' (fst (update_status lit id (posts db))) ->
            (exists p, In p (posts db) /\ same_but_status p p') \/
            posts_seq db < Post.id p').
  { intros lit id Hin. left. unfold update_status in Hin. cbn [fst] in Hin.
    apply in_map_iff in Hin as (p & <- & Hp). exists p. split; [exact Hp|].
    destruct (has_id id p); [apply set_status_same|apply same_but_status_refl]. }
  destruct r; try (rewrite Hposts in Hp'; now apply Hold).
  - destruct Hposts as [Hposts|Hposts]; rewrite Hposts in Hp'; [now apply Hold|].
    apply in_app_or in Hp' as [Hin|[<-|[]]]; [now apply Hold|].
    right. simpl. unfold next_rowid. lia.
  - rewrite Hposts in Hp'. now apply (Hupd (js "approved") id).
  - rewrite Hposts in Hp'. now apply (Hupd (js "rejected") id).
  - rewrite Hposts in Hp'. apply filter_In in Hp' as [Hin _]. now apply Hold.
Qed.

Lemma counter_after (db : Db) (r : Request) :
  posts_seq db <= posts_seq (snd (handle db r)).
Proof.
  destruct r; cbn [handle].
  - unfold signup. destruct (_ || _); [simpl; lia|].
    destruct (bcrypt_hash _ _ _); [|simpl; lia].
    unfold insert_user. destruct (existsb _ (users db)); [|simpl; lia].
    destruct (includes _ _); simpl; lia.
  - rewrite login_keeps_db. lia.
  - unfold submit. destruct (_ || _); cbn [snd insert_post posts_seq];
      unfold next_rowid; lia.
  - simpl. lia.
  - simpl. lia.
  - simpl. lia.
  - rewrite approve_unfold. simpl. lia.
  - rewrite reject_unfold. simpl. lia.
  - rewrite delete_unfold. simpl. lia.
  - rewrite get_keeps_db. lia.
  - rewrite presign_keeps_db. lia.
Qed.

Lemma handle_keys_below (db : Db) (r : Request) :
  keys_below_counter db -> keys_below_counter (snd (handle db r)).
Proof.
  unfold keys_below_counter. rewrite !List.Forall_forall. intros Hb p' Hp'.
  pose proof (counter_after db r) as Hseq.
  pose proof (posts_after db r) as Hposts.
  destruct r; try (rewrite Hposts in Hp'; specialize (Hb p' Hp'); lia).
  - destruct Hposts as [Hposts|Hposts]; rewrite Hposts in Hp';
      [specialize (Hb p' Hp'); lia|].
    apply in_app_or in Hp' as [Hin|[<-|[]]]; [specialize (Hb p' Hin); lia|].
    destruct (jnot title || jnot content || jnot author || jnot username
              || jnot category) eqn:Hg.
    + exfalso. cbn [handle] in Hposts. rewrite submit_rejected in Hposts by exact Hg.
      cbn [snd] in Hposts. apply (f_equal (@length _)) in Hposts.
      rewrite length_app in Hposts. simpl in Hposts. lia.
    + cbn [handle]. rewrite submit_accepted by exact Hg. simpl. lia.
  - rewrite Hposts in Hp'. unfold update_status in Hp'. cbn [fst] in Hp'.
    apply in_map_iff in Hp' as (p & <- & Hp). specialize (Hb p Hp).
    destruct (has_id id p); cbn [Post.id Post.set_status]; lia.
  - rewrite Hposts in Hp'. unfold update_status in Hp'. cbn [fst] in Hp'.
    apply in_map_iff in Hp' as (p & <- & Hp). specialize (Hb p Hp).
    destruct (has_id id p); cbn [Post.id Post.set_status]; lia.
  - rewrite Hposts in Hp'. apply filter_In in Hp' as [Hin _].
    specialize (Hb p' Hin). lia.
Qed.

Lemma row_descends (rs : list Request) (db : Db) (p' : Post.t) :
  keys_below_counter db ->
  In p' (posts (run db rs)) -> Post.id p' <= posts_seq db ->
  exists p, In p (posts db) /\ same_but_status p p'.
Proof.
  revert db. induction rs as [|r rs IH]; intros db Hb Hp' Hle.
  - exists p'. split; [exact Hp'|apply same_but_status_refl].
  - cbn [run fold_left] in Hp'. fold (run (snd (handle db r)) rs) in Hp'.
    pose proof (counter_after db r) as Hseq.
    destruct (IH (snd (handle db r)) (handle_keys_below db r Hb) Hp')
      as (q & Hq & Hqp'); [lia|].
    destruct (row_after db r q Hq) as [(p & Hp & Hpq)|Hnew].
    + exists p. split; [exact Hp|]. now apply (same_but_status_trans p q p').
    + destruct Hqp' as [Hid _]. lia.
Qed.

(** X11: the id of a post is never given to another submission.  In a
    store whose keys are distinct and not above the key counter, take a
    stored post; whatever requests follow, deletions included, a post
    stored under its id afterwards is that same submission: it has the
    same title, content, author, username, image, category and creation
    time, and differs at most in its status.  The counter never goes down
    and stays above every key. *)
Theorem post_ids_never_reused (db : Db) (rs : list Request) (p p' : Post.t) :
  List.NoDup (map Post.id (posts db)) -> keys_below_counter db ->
  In p (posts db) -> In p' (posts (run db rs)) -> Post.id p' = Post.id p ->
  same_but_status p p' /\
  posts_seq db <= posts_seq (run db rs) /\ keys_below_counter (run db rs).
Proof.
  intros Hnd Hb Hp Hp' Hid. split; [|split].
  - assert (Hle : Post.id p' <= posts_seq db).
    { unfold keys_below_counter in Hb. rewrite List.Forall_forall in Hb.
      rewrite Hid. now apply Hb. }
    destruct (row_descends rs db p' Hb Hp' Hle) as (q & Hq & Hqp').
    assert (q = p).
    { apply (key_determines_row (posts db)); try assumption.
      destruct Hqp' as [Hqid _]. congruence. }
    now subst q.
  - clear. revert db. induction rs as [|r rs IH]; intros db; [simpl; lia|].
    cbn [run fold_left]. fold (run (snd (handle db r)) rs).
    pose proof (counter_after db r). specialize (IH (snd (handle db r))). lia.
  - clear - Hb. revert db Hb. induction rs as [|r rs IH]; intros db Hb; [exact Hb|].
    cbn [run fold_left]. fold (run (snd (handle db r)) rs).
    apply IH, handle_keys_below, Hb.
Qed.

End PostKeys.

(** ** More on the listings *)

Lemma rows_of_filter_listing (lit : JsString) (db : Db) (p : Post.t) :
  In p (order_by_createdAt_desc (List.filter (has_status lit) (posts db))) <->
  In p (posts db) /\ Post.status p = Some lit.
Proof.
  destruct (filter_listing lit db) as (rows & Heq & _ & Hmem & _).
  injection Heq as <-. apply Hmem.
Qed.

Lemma rows_of_all (db : Db) (p : Post.t) :
  In p (order_by_createdAt_desc (posts db)) <-> In p (posts db).
Proof.
  pose proof (order_by_perm (posts db)) as Hperm. split; intros Hin.
  - eapply Permutation_in; eassumption.
  - eapply Permutation_in; [symmetry|]; eassumption.
Qed.

(** X12: the pending listing answers with exactly the posts whose status
    is "pending", newest first.  A rejected post is in neither the pending
    nor the approved listing; it is still in the listing of all posts and
    can still be read by its id. *)
Theorem rejected_posts_unlisted (db : Db) :
  lists_newest_first (fun p => Post.status p = Some (js "pending")) db
                     (listPending db) /\
  forall p, In p (posts db) -> Post.status p = Some (js "rejected") ->
    ~ In p (rows_of (listPending db)) /\
    ~ In p (rows_of (listApproved db)) /\
    In p (rows_of (listAll db)) /\
    code_of (fst (get db (Post.id p))) = Some 200.
Proof.
  split; [apply filter_listing|]. intros p Hp Hst.
  unfold rows_of, listPending, listApproved, listAll. cbn [fst].
  rewrite !rows_of_filter_listing, rows_of_all, Hst.
  repeat split; try exact Hp.
  - intros [_ [=]].
  - intros [_ [=]].
  - unfold get. destruct (List.find (has_id (Post.id p)) (posts db)) eqn:E;
      [reflexivity|].
    now destruct (proj2 (find_no_hit _ _) E p Hp).
Qed.

Section SubmitAndList.
Context `{Collaborators}.

(** X13: a post that has been submitted and then approved under the key
    it was given is published: the approve answers 200, the approved
    listing holds a post with that key, with status "approved" and the
    title, content and author that were submitted, and the pending listing
    holds no post with that key. *)
Theorem submit_then_approve_listed (now : Z) (db : Db)
    (title content author username imageUrl category : JsValue) :
  let result := submit now db title content author username imageUrl category in
  code_of (fst result) = Some 201 ->
  let id := posts_seq (snd result) in
  let db' := snd (approve (snd result) id) in
  fst (approve (snd result) id) = Sent 200 (Message (js "Post approved.")) /\
  (exists p, In p (rows_of (listApproved db')) /\ Post.id p = id /\
             Post.status p = Some (js "approved") /\
             Post.title p = sqlText title /\ Post.content p = sqlText content /\
             Post.author p = sqlText author) /\
  (forall p, In p (rows_of (listPending db')) -> Post.id p <> id).
Proof.
  intros result Hcode id db'.
  destruct (jnot title || jnot content || jnot author || jnot username
            || jnot category) eqn:Hg.
  { subst result. rewrite submit_rejected in Hcode by exact Hg. discriminate. }
  assert (Hr := submit_accepted now db title content author username imageUrl
                                category Hg).
  fold result in Hr.
  set (row := submitted_row now db title content author username imageUrl
                            category) in *.
  assert (Hid : id = Post.id row) by (subst id; now rewrite Hr).
  assert (Hrow : In row (posts (snd result)))
    by (rewrite Hr; cbn [snd posts]; apply in_or_app; right; now left).
  assert (Hposts : posts db' =
            fst (update_status (js "approved") id (posts (snd result))))
    by (subst db'; now rewrite approve_unfold).
  split; [|split].
  - apply approve_reply. exists row. split; [exact Hrow|now rewrite Hid].
  - exists (Post.set_status (js "approved") row).
    unfold rows_of, listApproved. cbn [fst]. rewrite rows_of_filter_listing.
    repeat split; try (now rewrite Hid).
    rewrite Hposts. unfold update_status. cbn [fst]. apply in_map_iff.
    exists row. split; [|exact Hrow].
    assert (E : has_id id row = true) by (apply has_id_true; now rewrite Hid).
    now rewrite E.
  - intros p. unfold rows_of, listPending. cbn [fst].
    rewrite rows_of_filter_listing. intros [Hp Hst] Hpid.
    rewrite Hposts in Hp.
    rewrite (update_status_hit (js "approved") id _ p Hp Hpid) in Hst.
    discriminate.
Qed.

(** X14: a post submitted at a time later than the creation time of
    every stored post comes first in the listing of all posts, followed by
    the posts stored before it. *)
Theorem newest_post_listed_first (now : Z) (db : Db)
    (title content author username imageUrl category : JsValue) :
  let result := submit now db title content author username imageUrl category in
  code_of (fst result) = Some 201 ->
  (forall q, In q (posts db) -> Post.createdAt q < now) ->
  exists rest,
    rows_of (listAll (snd result)) =
      submitted_row now db title content author username imageUrl category
        :: rest /\
    Permutation rest (posts db).
Proof.
  intros result Hcode Hold.
  destruct (jnot title || jnot content || jnot author || jnot username
            || jnot category) eqn:Hg.
  { subst result. rewrite submit_rejected in Hcode by exact Hg. discriminate. }
  assert (Hr := submit_accepted now db title content author username imageUrl
                                category Hg).
  fold result in Hr. rewrite Hr. unfold rows_of, listAll. cbn [fst snd posts].
  set (row := submitted_row now db title content author username imageUrl
                            category).
  pose proof (order_by_perm (posts db ++ [row])) as Hperm.
  pose proof (order_by_sorted (posts db ++ [row])) as Hsorted.
  destruct (order_by_createdAt_desc (posts db ++ [row])) as [|h rest] eqn:E.
  { apply Permutation_nil in Hperm. now destruct (posts db). }
  assert (Hh : h = row).
  { assert (Hin : In h (posts db ++ [row]))
      by (eapply Permutation_in; [exact Hperm|now left]).
    apply in_app_or in Hin as [Hin|[<-|[]]]; [exfalso|reflexivity].
    assert (Hrow : In row (h :: rest)).
    { eapply Permutation_in; [symmetry; exact Hperm|].
      apply in_or_app. right. now left. }
    destruct Hrow as [->|Hrow].
    - specialize (Hold row Hin). simpl in Hold. lia.
    - apply StronglySorted_inv in Hsorted as [_ Hall].
      rewrite List.Forall_forall in Hall. specialize (Hall row Hrow).
      unfold newer_first in Hall. simpl in Hall.
      specialize (Hold h Hin). lia. }
  subst h. exists rest. split; [reflexivity|].
  apply Permutation_app_inv_r with (l := [row]).
  transitivity (row :: rest); [|exact Hperm].
  symmetry. apply Permutation_cons_append.
Qed.

End SubmitAndList.

(** ** Sanitized names and storage keys *)

Lemma key_char_range (c : N) : is_key_char c = true -> (45 <= c <= 122)%N.
Proof.
  unfold is_key_char.
  rewrite !Bool.orb_true_iff, !Bool.andb_true_iff, !N.leb_le, !N.eqb_eq. lia.
Qed.

Lemma key_char_not_space (c : N) : is_key_char c = true -> is_space c = false.
Proof.
  intros Hr%key_char_range. unfold is_space.
  rewrite !Bool.orb_false_iff, !Bool.andb_false_iff, !N.leb_gt, !N.eqb_neq. lia.
Qed.

Lemma key_char_not_slash (c : N) : is_key_char c = true -> c <> slash.
Proof.
  unfold is_key_char, slash.
  rewrite !Bool.orb_true_iff, !Bool.andb_true_iff, !N.leb_le, !N.eqb_eq. lia.
Qed.

Lemma replace_space_runs_without_space (in_run : bool) (s : JsString) :
  Forall (fun c => is_space c = false) s -> replace_space_runs in_run s = s.
Proof.
  intros Hs. revert in_run. induction Hs as [|c s Hc Hs IH]; intros in_run;
    [reflexivity|].
  simpl. rewrite Hc. now rewrite IH.
Qed.

Lemma replace_space_runs_length (in_run : bool) (s : JsString) :
  (length (replace_space_runs in_run s) <= length s)%nat.
Proof.
  revert in_run. induction s as [|c s IH]; intros in_run; [reflexivity|].
  pose proof (IH true) as IHt. pose proof (IH false) as IHf.
  simpl. destruct (is_space c), in_run; simpl; lia.
Qed.

Lemma filter_all (keep : N -> bool) (s : JsString) :
  Forall (fun c => keep c = true) s -> List.filter keep s = s.
Proof.
  induction 1 as [|c s Hc Hs IH]; [reflexivity|]. simpl. now rewrite Hc, IH.
Qed.

Lemma sanitize_key_chars (s : JsString) :
  Forall (fun c => is_key_char c = true) s -> sanitize s = s.
Proof.
  intros Hs. unfold sanitize, strip_other_chars.
  rewrite replace_space_runs_without_space.
  - now apply filter_all.
  - eapply List.Forall_impl; [|exact Hs]. apply key_char_not_space.
Qed.

(** X15: a sanitized name is made of letters, digits, dots, underscores
    and hyphens only, so it holds no whitespace and no slash, and it is no
    longer than the name.  A name made of such characters is kept as it
    is, and sanitizing twice is sanitizing once. *)
Theorem sanitize_properties (name : JsString) :
  Forall (fun c => is_key_char c = true /\ is_space c = false /\ c <> slash)
         (sanitize name) /\
  (length (sanitize name) <= length name)%nat /\
  (Forall (fun c => is_key_char c = true) name -> sanitize name = name) /\
  sanitize (sanitize name) = sanitize name.
Proof.
  pose proof (strip_keeps_key_chars (replace_space_runs false name)) as Hkey.
  fold (sanitize name) in Hkey. split; [|split; [|split]].
  - eapply List.Forall_impl; [|exact Hkey]. intros c Hc. cbv beta in *.
    split; [exact Hc|]. split; [now apply key_char_not_space|].
    now apply key_char_not_slash.
  - unfold sanitize, strip_other_chars.
    etransitivity; [apply filter_length_le|apply replace_space_runs_length].
  - apply sanitize_key_chars.
  - now apply sanitize_key_chars.
Qed.

Lemma js_cons (a : ascii) (s : string) : js (String a s) = N_of_ascii a :: js s.
Proof. reflexivity. Qed.

Lemma js_inj (s t : string) : js s = js t -> s = t.
Proof.
  revert t. induction s as [|a s IH]; intros [|b t]; try discriminate;
    [reflexivity|].
  rewrite !js_cons. intros [= Hab Hst]. f_equal; [|now apply IH].
  rewrite <- (ascii_N_embedding a), <- (ascii_N_embedding b). now rewrite Hab.
Qed.

Lemma uint_digits (d : Decimal.uint) :
  Forall (fun c => is_digit c = true) (js (NilEmpty.string_of_uint d)).
Proof. induction d; simpl NilEmpty.string_of_uint; rewrite ?js_cons;
         constructor; try exact IHd; reflexivity. Qed.

Lemma decimal_digits (n : Z) :
  0 <= n -> Forall (fun c => is_digit c = true) (decimal n).
Proof.
  intros Hn. unfold decimal. destruct n as [|p|p]; [repeat constructor| |lia].
  simpl. unfold NilZero.string_of_uint.
  destruct (Pos.to_uint p) eqn:E; try (rewrite <- E; apply uint_digits).
  repeat constructor.
Qed.

Lemma to_int_not_nil (n : Z) :
  Z.to_int n <> Decimal.Pos Decimal.Nil /\ Z.to_int n <> Decimal.Neg Decimal.Nil.
Proof.
  destruct n as [|p|p]; simpl; split; try discriminate;
    intros [= E]; now apply DecimalPos.Unsigned.to_uint_nonnil in E.
Qed.

Lemma decimal_inj (a b : Z) : decimal a = decimal b -> a = b.
Proof.
  unfold decimal. intros E%js_inj. apply DecimalZ.to_int_inj.
  destruct (to_int_not_nil a) as [Ha1 Ha2], (to_int_not_nil b) as [Hb1 Hb2].
  pose proof (NilZero.isi _ Ha1 Ha2) as Ia. pose proof (NilZero.isi _ Hb1 Hb2) as Ib.
  rewrite E in Ia. congruence.
Qed.

Lemma split_at_hyphen (a b x y : JsString) :
  Forall (fun c => is_digit c = true) a ->
  Forall (fun c => is_digit c = true) b ->
  a ++ hyphen :: x = b ++ hyphen :: y -> a = b /\ x = y.
Proof.
  intros Ha. revert b. induction Ha as [|c a Hc Ha IH]; intros b Hb E.
  - destruct Hb as [|d b Hd Hb]; simpl in E.
    + now injection E.
    + injection E as <- _. discriminate Hd.
  - destruct Hb as [|d b Hd Hb]; simpl in E.
    + injection E as -> _. discriminate Hc.
    + injection E as -> E. destruct (IH b Hb E) as [-> ->]. now split.
Qed.

(** X16: two upload grants get the same storage key exactly when they
    are issued in the same millisecond for names with the same sanitized
    form (the clock being at or after the epoch).  Different names can
    have the same sanitized form, so the key does not tell them apart. *)
Theorem s3Key_collision (now1 now2 : Z) (name1 name2 : JsString) :
  0 <= now1 -> 0 <= now2 ->
  (s3Key now1 name1 = s3Key now2 name2 <->
   now1 = now2 /\ sanitize name1 = sanitize name2).
Proof.
  intros H1 H2. unfold s3Key. split.
  - intros E. apply app_inv_head in E.
    change (js "-") with [hyphen] in E. cbn [app] in E.
    apply split_at_hyphen in E as [Hd Hs]; try now apply decimal_digits.
    split; [now apply decimal_inj|exact Hs].
  - now intros [-> ->].
Qed.

Section UploadErrors.
Context `{Collaborators}.

(** X17: the upload route is left by an exception, with no reply of its
    own, exactly when both fields pass the presence check and fileName is
    not a string (a number or true), since it then has no replace
    method. *)
Theorem presign_uncaught (now : Z) (db : Db) (fileName fileType : JsValue) :
  fst (presign now db fileName fileType) = Uncaught <->
  truthy fileName = true /\ truthy fileType = true /\
  forall name, fileName <> JStr name.
Proof.
  unfold presign, jnot. split.
  - destruct (truthy fileName) eqn:Hn, (truthy fileType) eqn:Ht;
      cbn [negb orb fst]; try discriminate.
    destruct fileName; try (intros _; repeat split; discriminate).
    destruct (getSignedUrl _ _); discriminate.
  - intros (-> & -> & Hns). cbn [negb orb].
    destruct fileName; try reflexivity. now destruct (Hns s).
Qed.

End UploadErrors.

(** ** The form script against the submit route *)

Section Form.
Context `{Collaborators}.

(** X18: the request the form script sends has no category, so the
    submit route of [server.js] refuses it whatever the title, the content
    and the session are: the reply is 400 "Missing fields.", nothing is
    stored, and the script alerts "Failed to publish post: Missing
    fields.".  The author and the username it sends are never missing,
    since they fall back to "Guest User". *)
Theorem form_post_refused (now : Z) (db : Db) (postTitle postContent : JsString)
    (loggedInUsername : JsValue) :
  truthy (PostForm.authorDisplayName loggedInUsername) = true /\
  truthy (PostForm.authorUsername loggedInUsername) = true /\
  handle db (PostForm.request now postTitle postContent loggedInUsername) =
    (Sent 400 (Message (js "Missing fields.")), db) /\
  forall code body,
    fst (handle db (PostForm.request now postTitle postContent
                                     loggedInUsername)) = Sent code body ->
    PostForm.react postTitle code (PostForm.message_of body) =
      PostForm.Alert (js "Failed to publish post: Missing fields.").
Proof.
  assert (Hguest : truthy (jor loggedInUsername (JStr (js "Guest User"))) = true).
  { unfold jor. now destruct (truthy loggedInUsername) eqn:E. }
  assert (Hreply :
    handle db (PostForm.request now postTitle postContent loggedInUsername) =
    (Sent 400 (Message (js "Missing fields.")), db)).
  { cbn [handle PostForm.request]. apply submit_rejected.
    cbn [jnot truthy negb]. now rewrite !Bool.orb_true_r. }
  split; [exact Hguest|]. split; [exact Hguest|]. split; [exact Hreply|].
  intros code body. rewrite Hreply. cbn [fst]. now intros [= <- <-].
Qed.

(** X20: the create-post endpoint of the earlier server takes the same
    request: it accepts it exactly when the title and the content are not
    empty.  It then answers 201 with the key of the one row it stores,
    which holds the title and the content sent, and the script goes to the
    success page; otherwise it answers 400, stores nothing, and the script
    alerts the message of the reply. *)
Theorem form_post_and_earlier_server (now : Z) (db : Db)
    (postTitle postContent : JsString) (loggedInUsername : JsValue) :
  let reply :=
    Earlier.submit now db (JStr postTitle) (JStr postContent)
                   (PostForm.authorDisplayName loggedInUsername)
                   (PostForm.authorUsername loggedInUsername) JUndefined in
  let reaction :=
    PostForm.react postTitle (Earlier.code (fst reply))
                   (JStr (Earlier.message (fst reply))) in
  (postTitle <> [] /\ postContent <> [] ->
   Earlier.code (fst reply) = 201 /\
   reaction = PostForm.Published postTitle (js "success")
                                 (js "post-success.html") /\
   exists row,
     posts (snd reply) = posts db ++ [row] /\
     Earlier.postId (fst reply) = Some (Post.id row) /\
     (forall p, In p (posts db) -> Post.id p <> Post.id row) /\
     Post.title row = sqlText (JStr postTitle) /\
     Post.content row = sqlText (JStr postContent) /\
     Post.createdAt row = now) /\
  (postTitle = [] \/ postContent = [] ->
   snd reply = db /\ Earlier.code (fst reply) = 400 /\
   reaction = PostForm.Alert
     (js "Failed to publish post: " ++
      js "Title, content, author, and username are required.")).
Proof.
  assert (Hguest : truthy (jor loggedInUsername (JStr (js "Guest User"))) = true).
  { unfold jor. now destruct (truthy loggedInUsername) eqn:E. }
  cbv zeta. unfold Earlier.submit, PostForm.authorDisplayName,
    PostForm.authorUsername, jnot. rewrite Hguest. split.
  - intros [Ht Hc]. apply truthy_JStr in Ht, Hc. rewrite Ht, Hc.
    cbn [negb orb fst snd Earlier.code Earlier.message Earlier.postId posts].
    repeat split. eexists. split; [reflexivity|].
    cbn [Post.id Post.title Post.content Post.createdAt]. repeat split.
    intros p Hp.
    pose proof (next_rowid_fresh (posts_seq db) _ _ (in_map Post.id _ _ Hp)).
    lia.
  - intros [-> | ->]; cbn [truthy negb orb];
      rewrite ?Bool.orb_true_r; cbn [fst snd Earlier.code Earlier.message];
      repeat split.
Qed.

End Form.

(** ** The carousel *)

Lemma hidden_slides (displays : list JsString) :
  map (fun _ => js "none") displays = replicate (length displays) (js "none").
Proof. induction displays as [|d l IH]; [reflexivity|]. simpl. now rewrite IH. Qed.

Lemma showSlide_in_range (index : nat) (displays : list JsString) :
  (index < length displays)%nat ->
  Carousel.showSlide index displays =
    Some (Carousel.only_shown index (length displays)).
Proof.
  intros Hlt. unfold Carousel.showSlide, Carousel.only_shown.
  rewrite hidden_slides. now rewrite lookup_replicate_2.
Qed.

Lemma showSlide_out_of_range (index : nat) (displays : list JsString) :
  (length displays <= index)%nat -> Carousel.showSlide index displays = None.
Proof.
  intros Hle. unfold Carousel.showSlide. rewrite hidden_slides.
  now rewrite (proj1 (lookup_replicate_None _ _ _) Hle).
Qed.

Lemma only_shown_length (i n : nat) : length (Carousel.only_shown i n) = n.
Proof. unfold Carousel.only_shown. now rewrite length_insert, length_replicate. Qed.

Lemma only_shown_lookup (i n j : nat) :
  (i < n)%nat -> (j < n)%nat ->
  Carousel.only_shown i n !! j =
    Some (if Nat.eqb j i then js "block" else js "none").
Proof.
  intros Hi Hj. unfold Carousel.only_shown.
  destruct (Nat.eqb_spec j i) as [->|Hne].
  - apply list_lookup_insert_eq. now rewrite length_replicate.
  - rewrite list_lookup_insert_ne by congruence. now apply lookup_replicate_2.
Qed.

Lemma nextSlide_some (c : Carousel.t) :
  Carousel.slides c <> [] ->
  let n := length (Carousel.slides c) in
  let current := ((Carousel.currentSlide c + 1) mod n)%nat in
  Carousel.nextSlide c =
    Some (Carousel.mk current (Carousel.only_shown current n)).
Proof.
  intros Hne. cbv zeta. unfold Carousel.nextSlide.
  destruct (length (Carousel.slides c)) as [|m] eqn:En.
  { apply length_zero_iff_nil in En. contradiction. }
  rewrite showSlide_in_range; [now rewrite En|].
  rewrite En. apply Nat.mod_upper_bound. discriminate.
Qed.

Lemma ticks_some (k : nat) (c : Carousel.t) :
  Carousel.slides c <> [] ->
  let n := length (Carousel.slides c) in
  let current := ((Carousel.currentSlide c + S k) mod n)%nat in
  Carousel.ticks (S k) c =
    Some (Carousel.mk current (Carousel.only_shown current n)).
Proof.
  revert c. induction k as [|k IH]; intros c Hne; cbv zeta.
  - cbn [Carousel.ticks]. now rewrite nextSlide_some.
  - change (Carousel.ticks (S (S k)) c) with
      (match Carousel.nextSlide c with
       | Some c' => Carousel.ticks (S k) c'
       | None => None
       end).
    rewrite nextSlide_some by exact Hne. cbv zeta.
    rewrite IH; cbn [Carousel.slides Carousel.currentSlide];
      rewrite ?only_shown_length.
    + rewrite Nat.Div0.add_mod_idemp_l.
      replace (Carousel.currentSlide c + 1 + S k)%nat
        with (Carousel.currentSlide c + S (S k))%nat by lia.
      reflexivity.
    + intros Hnil. apply (f_equal (@length _)) in Hnil.
      rewrite only_shown_length in Hnil.
      destruct (Carousel.slides c); [contradiction|discriminate].
Qed.

(** X19: with at least one slide the carousel never throws: after the
    page has loaded and the timer has fired k times, the current slide is
    k modulo the number of slides, that slide has display "block" and
    every other slide "none", and as many further firings as there are
    slides bring back the same state.  With no slide the script throws at
    load time. *)
Theorem carousel_cycles (displays : list JsString) (k : nat) :
  displays <> [] ->
  let n := length displays in
  exists c0 ck,
    Carousel.init displays = Some c0 /\ Carousel.ticks k c0 = Some ck /\
    Carousel.currentSlide ck = (k mod n)%nat /\
    (forall j, (j < n)%nat ->
       Carousel.slides ck !! j =
         Some (if Nat.eqb j (k mod n) then js "block" else js "none")) /\
    Carousel.ticks n ck = Some ck /\
    Carousel.init [] = None.
Proof.
  intros Hne n.
  assert (Hn : n <> 0%nat).
  { subst n. intros E. apply length_zero_iff_nil in E. contradiction. }
  assert (Hshown : forall i, Carousel.only_shown i n <> []).
  { intros i E. apply (f_equal (@length _)) in E.
    rewrite only_shown_length in E. simpl in E. contradiction. }
  set (c0 := Carousel.mk 0 (Carousel.only_shown 0 n)).
  set (ck := Carousel.mk (k mod n) (Carousel.only_shown (k mod n) n)).
  assert (Hinit : Carousel.init displays = Some c0).
  { unfold Carousel.init. rewrite showSlide_in_range; [reflexivity|].
    fold n. lia. }
  assert (Hk : Carousel.ticks k c0 = Some ck).
  { destruct k as [|k'].
    - cbn [Carousel.ticks]. subst ck c0. now rewrite Nat.Div0.mod_0_l.
    - rewrite ticks_some by (cbn; apply Hshown).
      cbn [Carousel.slides Carousel.currentSlide c0].
      rewrite only_shown_length. reflexivity. }
  exists c0, ck. split; [exact Hinit|]. split; [exact Hk|].
  split; [reflexivity|]. split.
  - intros j Hj. subst ck. cbn [Carousel.slides].
    apply only_shown_lookup; [|exact Hj]. now apply Nat.mod_upper_bound.
  - split; [|reflexivity].
    destruct n as [|m] eqn:En; [contradiction|].
    rewrite ticks_some by (cbn; apply Hshown).
    subst ck. cbn [Carousel.slides Carousel.currentSlide].
    rewrite only_shown_length.
    replace (k mod S m + S m)%nat with (k mod S m + 1 * S m)%nat by lia.
    now rewrite Nat.Div0.mod_add, Nat.Div0.mod_mod.
Qed.

(** ** The further properties at work on sample requests *)

Lemma absent_id_not_found_witness :
  (forall p, In p (posts one_post_db) -> Post.id p <> 2) /\
  get one_post_db 2 = (Sent 404 (Message (js "Post not found.")), one_post_db).
Proof.
  assert (Hno : forall p, In p (posts one_post_db) -> Post.id p <> 2).
  { rewrite one_post_db_rows. intros p [<-|[]]. discriminate. }
  split; [exact Hno|].
  exact (proj2 (proj2 (proj2 (absent_id_not_found one_post_db 2 Hno)))).
Defined.

Lemma delete_then_get_witness :
  (exists p, In p (posts one_post_db) /\ Post.id p = 1) /\
  fst (delete_post one_post_db 1) = Sent 200 (Message (js "Post deleted.")).
Proof.
  assert (Hex : exists p, In p (posts one_post_db) /\ Post.id p = 1).
  { exists (sample_post "pending"). split; [left|]; reflexivity. }
  split; [exact Hex|]. exact (proj1 (delete_then_get one_post_db 1 Hex)).
Defined.

Lemma get_returns_the_row_witness :
  List.NoDup (map Post.id (posts one_post_db)) /\
  get one_post_db 1 = (Sent 200 (RowBody (sample_post "pending")), one_post_db).
Proof.
  assert (Hnd : List.NoDup (map Post.id (posts one_post_db))).
  { rewrite one_post_db_rows. repeat constructor. intros []. }
  split; [exact Hnd|].
  apply (proj1 (get_returns_the_row one_post_db 1 (sample_post "pending") Hnd)).
  split; [left|]; reflexivity.
Defined.

Lemma moderation_commutes_witness :
  1 <> 2 /\
  snd (reject (snd (approve two_posts_db 1)) 2) =
  snd (approve (snd (reject two_posts_db 2)) 1).
Proof.
  assert (Hne : 1 <> 2) by discriminate.
  split; [exact Hne|]. exact (moderation_commutes two_posts_db 1 2 Hne).
Defined.

Lemma signup_then_login_witness :
  @bcrypt_hash demo 7 (JStr (js "s3cret")) 10 = Some (js "$2b$10$7$terc3s") /\
  @login demo ann_db (JStr (js "ann@example.org")) (JStr (js "s3cret")) =
    (Sent 200 (LoginBody (js "Login successful!") 1 (js "Ann")
                         (js "ann@example.org")), ann_db).
Proof.
  split; [reflexivity|].
  refine (proj2 (proj2 (proj2 (proj2
    (@signup_then_login demo 7 empty_db (JStr (js "Ann"))
       (JStr (js "ann@example.org")) (JStr (js "s3cret"))
       (js "$2b$10$7$terc3s") eq_refl eq_refl eq_refl eq_refl _ eq_refl))))).
  intros u [].
Defined.

Lemma login_success_sound_witness :
  @login demo ann_db (JStr (js "ann@example.org")) (JStr (js "s3cret")) =
    (Sent 200 (LoginBody (js "Login successful!") 1 (js "Ann")
                         (js "ann@example.org")), ann_db) /\
  exists user, In user (users ann_db) /\
               @bcrypt_compare demo (JStr (js "s3cret")) (User.password user)
                 = Some true.
Proof.
  assert (Hlogin :
    @login demo ann_db (JStr (js "ann@example.org")) (JStr (js "s3cret")) =
    (Sent 200 (LoginBody (js "Login successful!") 1 (js "Ann")
                         (js "ann@example.org")), ann_db)) by reflexivity.
  split; [exact Hlogin|].
  destruct (@login_success_sound demo _ _ _ _ _ Hlogin)
    as (_ & _ & _ & user & Hin & _ & Hcmp & _).
  exists user. split; [exact Hin|exact Hcmp].
Defined.

Lemma emails_stay_unique_witness :
  emails_unique empty_db /\
  emails_unique
    (@run demo empty_db
       [Signup 7 (JStr (js "Ann")) (JStr (js "ann@example.org"))
               (JStr (js "s3cret"));
        Signup 8 (JStr (js "Bob")) (JStr (js "ann@example.org"))
               (JStr (js "hunter2"))]).
Proof.
  assert (Hu : emails_unique empty_db) by constructor.
  split; [exact Hu|]. exact (@emails_stay_unique demo empty_db _ Hu).
Defined.

Lemma post_ids_never_reused_witness :
  keys_below_counter one_post_db /\
  same_but_status (sample_post "pending") (sample_post "approved").
Proof.
  assert (Hb : keys_below_counter one_post_db).
  { unfold keys_below_counter. rewrite one_post_db_rows.
    repeat constructor. discriminate. }
  assert (Hnd : List.NoDup (map Post.id (posts one_post_db))).
  { rewrite one_post_db_rows. repeat constructor. intros []. }
  split; [exact Hb|].
  refine (proj1 (@post_ids_never_reused demo one_post_db
                   [Approve 1; sample_submit; Delete 2]
                   (sample_post "pending") (sample_post "approved")
                   Hnd Hb _ _ eq_refl)).
  - left. reflexivity.
  - left. reflexivity.
Defined.

Lemma submit_then_approve_listed_witness :
  code_of (fst (@handle demo empty_db sample_submit)) = Some 201 /\
  fst (approve one_post_db 1) = Sent 200 (Message (js "Post approved.")).
Proof.
  split; [reflexivity|].
  exact (proj1 (@submit_then_approve_listed demo 1700000000 empty_db
                  (JStr (js "T")) (JStr (js "C")) (JStr (js "Alice"))
                  (JStr (js "alice")) JUndefined (JStr (js "tech")) eq_refl)).
Defined.

Lemma newest_post_listed_first_witness :
  (forall q, In q (posts one_post_db) -> Post.createdAt q < 1700000100) /\
  exists rest,
    rows_of (listAll (snd (@submit demo 1700000100 one_post_db (JStr (js "T"))
                             (JStr (js "C")) (JStr (js "Alice"))
                             (JStr (js "alice")) JUndefined
                             (JStr (js "tech"))))) = later_post :: rest.
Proof.
  assert (Hold : forall q, In q (posts one_post_db) ->
                           Post.createdAt q < 1700000100).
  { rewrite one_post_db_rows. intros q [<-|[]]. reflexivity. }
  split; [exact Hold|].
  destruct (@newest_post_listed_first demo 1700000100 one_post_db
              (JStr (js "T")) (JStr (js "C")) (JStr (js "Alice"))
              (JStr (js "alice")) JUndefined (JStr (js "tech")) eq_refl Hold)
    as (rest & Hrows & _).
  exists rest. exact Hrows.
Defined.

Lemma s3Key_collision_witness :
  js "a b" <> js "a_b" /\ s3Key 5 (js "a b") = s3Key 5 (js "a_b").
Proof.
  split; [discriminate|].
  apply (proj2 (s3Key_collision 5 5 (js "a b") (js "a_b")
                  ltac:(discriminate) ltac:(discriminate))).
  split; reflexivity.
Defined.

Lemma carousel_cycles_witness :
  three_slides <> [] /\
  exists c0 ck,
    Carousel.init three_slides = Some c0 /\ Carousel.ticks 4 c0 = Some ck /\
    Carousel.currentSlide ck = 1%nat.
Proof.
  assert (Hne : three_slides <> []) by discriminate.
  split; [exact Hne|].
  destruct (carousel_cycles three_slides 4 Hne) as (c0 & ck & Hi & Hk & Hc & _).
  exists c0, ck. split; [exact Hi|]. split; [exact Hk|exact Hc].
Defined.
